(** * gitbot: pagination view, GitHub object cache, size gate, user store

    A shallow embedding of the parts of the bot that carry logic of their
    own:
    - [lib/structs/discord/components/github_lines_view.py]: the view that
      steps through 25-line windows of a file ([LinesView]);
    - [lib/api/github.py]: the [github_cached] decorator and [get_repo_zip]
      ([GitHub]);
    - [cogs/github/other/loc.py]: the lines-of-code command ([Loc]);
    - [lib/structs/db/user_collection.py]: the preference store
      ([UserCollection]);
    - [cogs/github/base/user.py], [cogs/rust/crates.py]: the truncation of
      long lists ([Commands]).

    Python integers are unbounded, so they are [Z].  Text fetched from the
    network, HTTP responses and the outcome of the external line counter are
    inputs of the functions that consume them.  Coroutines are modelled as
    running to completion one after the other. *)

From Stdlib Require Import Ascii.
From stdpp Require Import base numbers strings list gmap pretty.

Set Warnings "-register-all".
Open Scope Z_scope.

(** ** Python values shared by the modules *)

Module Py.

(** What an API method can return: JSON-shaped data. *)
Inductive pyval : Type :=
| PyNone
| PyBool (b : bool)
| PyInt (z : Z)
| PyStr (s : string)
| PyList (xs : list pyval)
| PyDict (kv : list (string * pyval)).

(** [bool(v)]: None, False, 0, the empty string and empty containers are
    falsy. *)
Definition truthy (v : pyval) : bool :=
  match v with
  | PyNone => false
  | PyBool b => b
  | PyInt z => negb (z =? 0)
  | PyStr s => negb (String.eqb s "")
  | PyList xs => match xs with [] => false | _ => true end
  | PyDict kv => match kv with [] => false | _ => true end
  end.

(** [isinstance(v, (dict, list))]. *)
Definition is_container (v : pyval) : bool :=
  match v with
  | PyList _ | PyDict _ => true
  | _ => false
  end.

(** [v is not None]. *)
Definition is_not_none (v : pyval) : bool :=
  match v with
  | PyNone => false
  | _ => true
  end.

(** Truthiness of an [Optional[str]]. *)
Definition truthy_text (t : option string) : bool :=
  match t with
  | Some s => negb (String.eqb s "")
  | None => false
  end.

(** [str(n)] for an int. *)
Definition str_of_int (n : Z) : string := pretty n.

(** Exceptions the modelled code can raise. *)
Inductive exn : Type :=
| IndexError
| StopIteration
| KeyError
| WriteError.

(** [c.lower()] and [c.isupper()] on the ASCII range, which is what user
    and repository names are made of. *)
Definition lower_ascii (c : ascii) : ascii :=
  let n := nat_of_ascii c in
  if ((65 <=? n) && (n <=? 90))%nat then ascii_of_nat (n + 32) else c.

Definition isupper_ascii (c : ascii) : bool :=
  let n := nat_of_ascii c in
  ((65 <=? n) && (n <=? 90))%nat.

Fixpoint lower (s : string) : string :=
  match s with
  | EmptyString => EmptyString
  | String c s' => String (lower_ascii c) (lower s')
  end.

(** [s.count(c)] for a one-character needle. *)
Fixpoint count_char (c : ascii) (s : string) : nat :=
  match s with
  | EmptyString => 0%nat
  | String d s' => ((if Ascii.eqb c d then 1 else 0) + count_char c s')%nat
  end.

(** [s.replace(old, new)]: every non-overlapping occurrence, scanning from
    the left.  [skip] counts the characters of a match already replaced.
    An empty [old] matches before every character and at the end. *)
Fixpoint replace_go (old new : string) (skip : nat) (s : string) : string :=
  match s with
  | EmptyString => EmptyString
  | String c s' =>
      match skip with
      | S k => replace_go old new k s'
      | O =>
          if String.prefix old s
          then new +:+ replace_go old new (String.length old - 1) s'
          else String c (replace_go old new 0 s')
      end
  end.

Fixpoint replace_empty (new : string) (s : string) : string :=
  match s with
  | EmptyString => new
  | String c s' => new +:+ String c (replace_empty new s')
  end.

Definition replace (s old new : string) : string :=
  match old with
  | EmptyString => replace_empty new s
  | _ => replace_go old new 0 s
  end.

End Py.

(** ** The line-range view: github_lines_view.py *)

Module LinesView.
Import Py.

(** A group of a regex match, or a component of the tuple handed to the
    snippet fetcher: [None], a string, or (after a step) an int. *)
Inductive group : Type :=
| GNone
| GStr (s : string)
| GInt (n : Z).

(** The match of the lines URL as [__init__] reads it: the tuple
    [groups()], the group [platform], and the two line-number groups
    already converted by [int] ([second_line_number] is [None] when the
    URL names one line only). *)
Record re_match : Type := {
  groups : list group;
  platform_group : string;
  first_line_number : Z;
  second_line_number : option Z
}.

(** A button label: a locale template applied to its arguments
    ([ctx.l.views.button.github_lines.view] and [.view_from_to]). *)
Inductive label : Type :=
| View (n : Z)
| ViewFromTo (a b : Z).

(** The fields of [GitHubLinesView] the callbacks read and write.
    [back_label] and [forward_label] are the labels of [children[0]] and
    [children[1]]; [revert_disabled] is [children[2].disabled]; [_url] is
    the attribute the revert button assigns. *)
Record view : Type := {
  lines_url : string;
  parsed : re_match;
  platform : string;
  l1 : Z;
  l2 : option Z;
  __original_url__ : string;
  __original_l1__ : Z;
  __original_l2__ : option Z;
  __original_match__ : re_match;
  _url : option string;
  back_label : label;
  forward_label : label;
  revert_disabled : bool
}.

(** [GitHubLinesButton.get_next_lines]. *)
Definition get_next_lines (l1 : Z) (l2 : option Z) (forward : bool) : Z * Z :=
  let '(l1, l2) :=
    if forward then
      match l2 with
      | Some l2 => (l2 + 1, l2 + 25)
      | None => (l1, l1 + 25)
      end
    else (l1 - 25, l1 - 1) in
  (Z.max l1 1, Z.max l2 1).

(** [x or y] for an [int | None] on the left. *)
Definition or_else (x : option Z) (y : Z) : Z :=
  match x with
  | Some n => if n =? 0 then y else n
  | None => y
  end.

(** [GitHubLinesView.__init__], [_set_originals] included. *)
Definition init (lines_url : string) (parsed : re_match) : view :=
  let l1 := Z.max (first_line_number parsed) 1 in
  let l2 := second_line_number parsed in
  let _b_l1 := Z.max (l1 - 25) 1 in
  let _b_l2 := Z.max (l1 - 1) 1 in
  {| lines_url := lines_url;
     parsed := parsed;
     platform := platform_group parsed;
     l1 := l1;
     l2 := l2;
     __original_url__ := lines_url;
     __original_l1__ := l1;
     __original_l2__ := l2;
     __original_match__ := parsed;
     _url := None;
     back_label := if negb (_b_l1 =? _b_l2) then ViewFromTo _b_l1 _b_l2 else View 1;
     forward_label := ViewFromTo (Z.max (or_else l2 l1 + 1) 1) (Z.max (or_else l2 l1 + 25) 1);
     revert_disabled := true |}.

(** [GitHubLinesView.set_labels]. *)
Definition set_labels (v : view) (range_backward range_forward : Z * Z) : view :=
  {| lines_url := lines_url v;
     parsed := parsed v;
     platform := platform v;
     l1 := l1 v;
     l2 := l2 v;
     __original_url__ := __original_url__ v;
     __original_l1__ := __original_l1__ v;
     __original_l2__ := __original_l2__ v;
     __original_match__ := __original_match__ v;
     _url := _url v;
     back_label :=
       if fst range_backward =? snd range_backward then View 1
       else ViewFromTo (fst range_backward) (snd range_backward);
     forward_label := ViewFromTo (fst range_forward) (snd range_forward);
     revert_disabled := revert_disabled v |}.

(** The message the view is attached to, with the calls made on it:
    [edits] counts [interaction.message.edit], [requests] lists the match
    data handed to [get_text_from_url_and_data], latest first. *)
Record ui : Type := {
  the_view : view;
  content : option string;
  edits : nat;
  requests : list (list group)
}.

(** The URL rewritten by a forward or backward press.  The [gitlab] case
    with no second line formats the list [[previous_l1]], hence the
    brackets. *)
Definition next_url (v : view) (previous_l1 : Z) (previous_l2 : option Z)
    (n1 n2 : Z) : string :=
  if String.eqb (platform v) "github" then
    match previous_l2 with
    | None =>
        replace (lines_url v) ("#L" +:+ str_of_int previous_l1)
          ("#L" +:+ str_of_int n1 +:+ "-L" +:+ str_of_int n2)
    | Some p2 =>
        replace (lines_url v) ("L" +:+ str_of_int previous_l1 +:+ "-L" +:+ str_of_int p2)
          ("L" +:+ str_of_int n1 +:+ "-L" +:+ str_of_int n2)
    end
  else if String.eqb (platform v) "gitlab" then
    match previous_l2 with
    | None =>
        replace (lines_url v) ("#L[" +:+ str_of_int previous_l1 +:+ "]")
          ("#L" +:+ str_of_int n1 +:+ "-" +:+ str_of_int n2)
    | Some p2 =>
        replace (lines_url v) ("#L" +:+ str_of_int previous_l1 +:+ "-L" +:+ str_of_int p2)
          ("#L" +:+ str_of_int n1 +:+ "-L" +:+ str_of_int n2)
    end
  else lines_url v.

(** [GitHubLinesButton.callback].  [fetched] is the text that
    [get_text_from_url_and_data] returns for the new range. *)
Definition button_callback (forward : bool) (fetched : option string) (st : ui) : ui :=
  let v := the_view st in
  let previous_l1 := l1 v in
  let previous_l2 := l2 v in
  let '(n1, n2) := get_next_lines (l1 v) (l2 v) forward in
  let v1 :=
    {| lines_url := next_url v previous_l1 previous_l2 n1 n2;
       parsed := parsed v;
       platform := platform v;
       l1 := n1;
       l2 := Some n2;
       __original_url__ := __original_url__ v;
       __original_l1__ := __original_l1__ v;
       __original_l2__ := __original_l2__ v;
       __original_match__ := __original_match__ v;
       _url := _url v;
       back_label := back_label v;
       forward_label := forward_label v;
       revert_disabled := false |} in
  let new_match := take 4 (groups (parsed v)) ++ [GInt n1; GInt n2] in
  if truthy_text fetched then
    let l_b := get_next_lines n1 (Some n2) false in
    let l_f := get_next_lines n1 (Some n2) true in
    {| the_view := set_labels v1 l_b l_f;
       content :=
         Some ("`#L" +:+ str_of_int n1
               +:+ (if negb (n2 =? 1) then "-L" +:+ str_of_int n2 else "")
               +:+ "`" +:+ String (ascii_of_nat 10) (default "" fetched));
       edits := S (edits st);
       requests := new_match :: requests st |}
  else
    {| the_view := v1;
       content := content st;
       edits := edits st;
       requests := new_match :: requests st |}.

(** [_GitHubLinesBackToOriginalButton.callback].  [fetched] is the text
    fetched for the original match. *)
Definition revert_callback (fetched : option string) (st : ui) : ui :=
  let v := the_view st in
  let v1 :=
    {| lines_url := lines_url v;
       parsed := parsed v;
       platform := platform v;
       l1 := __original_l1__ v;
       l2 := __original_l2__ v;
       __original_url__ := __original_url__ v;
       __original_l1__ := __original_l1__ v;
       __original_l2__ := __original_l2__ v;
       __original_match__ := __original_match__ v;
       _url := Some (__original_url__ v);
       back_label := back_label v;
       forward_label := forward_label v;
       revert_disabled := true |} in
  {| the_view :=
       set_labels v1
         (get_next_lines (__original_l1__ v) (__original_l2__ v) false)
         (get_next_lines (__original_l1__ v) (__original_l2__ v) true);
     content := fetched;
     edits := S (edits st);
     requests := groups (__original_match__ v) :: requests st |}.

(** A press of one of the three buttons, with the text the fetch returns. *)
Inductive press : Type :=
| Step (forward : bool) (fetched : option string)
| Revert (fetched : option string).

Definition handle (p : press) (st : ui) : ui :=
  match p with
  | Step forward fetched => button_callback forward fetched st
  | Revert fetched => revert_callback fetched st
  end.

(** The presses of a session, in order. *)
Definition session (ps : list press) (st : ui) : ui :=
  fold_left (fun st p => handle p st) ps st.

(** The message as first sent with a freshly built view. *)
Definition opened (lines_url : string) (parsed : re_match) (text : option string) : ui :=
  {| the_view := init lines_url parsed; content := text; edits := 0; requests := [] |}.

(** What [_set_originals] captures. *)
Definition originals (v : view) : Z * option Z * string * re_match :=
  (__original_l1__ v, __original_l2__ v, __original_url__ v, __original_match__ v).

(** Presses of the revert button only. *)
Definition only_reverts (ps : list press) : Prop :=
  Forall (fun p => match p with Revert _ => True | Step _ _ => False end) ps.

(** *** Windows, for reasoning about [get_next_lines] alone *)

(** The pair [(l1, l2)] of a view. *)
Definition window : Type := Z * option Z.

(** One press as it acts on the window: the assignment
    [self.view.l1, self.view.l2 = self.get_next_lines(...)]. *)
Definition step (forward : bool) (w : window) : window :=
  let '(n1, n2) := get_next_lines (fst w) (snd w) forward in (n1, Some n2).

Fixpoint steps (dirs : list bool) (w : window) : window :=
  match dirs with
  | [] => w
  | d :: ds => steps ds (step d w)
  end.

(** The values [get_next_lines] hands to [max(_, 1)]. *)
Definition unclamped (l1 : Z) (l2 : option Z) (forward : bool) : Z * Z :=
  if forward then
    match l2 with
    | Some l2 => (l2 + 1, l2 + 25)
    | None => (l1, l1 + 25)
    end
  else (l1 - 25, l1 - 1).

(** A step clamps when [max(_, 1)] changes one of the two values. *)
Definition clamps (forward : bool) (w : window) : bool :=
  let '(r1, r2) := unclamped (fst w) (snd w) forward in
  (r1 <? 1) || (r2 <? 1).

(** Whether some step of a run clamps. *)
Fixpoint any_clamp (dirs : list bool) (w : window) : bool :=
  match dirs with
  | [] => false
  | d :: ds => clamps d w || any_clamp ds (step d w)
  end.

(** [n] presses forward, then [n] presses backward. *)
Definition there_and_back (n : nat) : list bool :=
  replicate n true ++ replicate n false.

End LinesView.

(** ** The GitHub API wrapper: lib/api/github.py *)

Module GitHub.
Import Py.

Definition BASE_URL : string := "https://api.github.com".

(** [int(7.85 * (1024 ** 2))]. *)
Definition DISCORD_UPLOAD_SIZE_THRESHOLD_BYTES : Z := 8231321.

(** An argument of a call to a cached method: the receiver [self] (an
    object, shown by its repr), a name or an id. *)
Inductive arg : Type :=
| ArgObj (repr : string)
| ArgStr (s : string)
| ArgInt (n : Z).

(** How an f-string renders an argument. *)
Definition format_arg (a : arg) : string :=
  match a with
  | ArgObj repr => repr
  | ArgStr s => s
  | ArgInt n => str_of_int n
  end.

(** A decorated coroutine: [id(func)] and what awaiting it returns. *)
Record cached_fn : Type := {
  fn_id : Z;
  fn_call : list arg -> list (string * arg) -> pyval
}.

(** Modelled from the spec: [TypedCache] (lib.structs) is not among the
    sources.  Section 4.2 describes a bounded key-to-value cache with a
    size cap and age-based eviction.  It is a dictionary from keys to
    values; which entries the size cap drops on an insertion is an input
    ([evicted]), and an entry aging out is an event of its own
    ([Expire] below). *)
Definition cache_get (cache : gmap string pyval) (key : string) : pyval :=
  default PyNone (cache !! key).

Definition cache_set (cache : gmap string pyval) (key : string) (value : pyval)
    (evicted : list string) : gmap string pyval :=
  <[key := value]> (foldr delete cache evicted).

(** The [cache_key] of [github_cached.wrapper]:
    [f'{id(func)}:{args[1] if args else next(iter(kwargs))}'].
    Iterating a dict yields its keys. *)
Definition cache_key (func : cached_fn) (args : list arg)
    (kwargs : list (string * arg)) : exn + string :=
  match args with
  | _ :: _ =>
      match args !! 1%nat with
      | Some a => inr (str_of_int (fn_id func) +:+ ":" +:+ format_arg a)
      | None => inl IndexError
      end
  | [] =>
      match kwargs with
      | (name, _) :: _ => inr (str_of_int (fn_id func) +:+ ":" +:+ name)
      | [] => inl StopIteration
      end
  end.

(** [github_cached.wrapper] on the class-level [github_object_cache]:
    the value returned and the cache afterwards, or the exception. *)
Definition wrapper (func : cached_fn) (args : list arg) (kwargs : list (string * arg))
    (evicted : list string) (cache : gmap string pyval)
    : exn + (pyval * gmap string pyval) :=
  match cache_key func args kwargs with
  | inl e => inl e
  | inr key =>
      let cached := cache_get cache key in
      if truthy cached then inr (cached, cache)
      else
        let result := fn_call func args kwargs in
        if is_container result
        then inr (result, cache_set cache key result evicted)
        else inr (result, cache)
  end.

(** What happens to [github_object_cache] over time: calls through the
    decorator, and entries aging out. *)
Inductive cache_event : Type :=
| Call (func : cached_fn) (args : list arg) (kwargs : list (string * arg))
       (evicted : list string)
| Expire (key : string).

Definition cache_step (cache : gmap string pyval) (ev : cache_event) : gmap string pyval :=
  match ev with
  | Call func args kwargs evicted =>
      match wrapper func args kwargs evicted cache with
      | inr (_, cache') => cache'
      | inl _ => cache
      end
  | Expire key => delete key cache
  end.

Definition cache_run (evs : list cache_event) (cache : gmap string pyval)
    : gmap string pyval :=
  fold_left cache_step evs cache.

(** Every value the cache holds is a dict or a list. *)
Definition containers_only (cache : gmap string pyval) : Prop :=
  map_Forall (fun _ value => is_container value = true) cache.

(** The response of [session.get]: status and body. *)
Record http_response : Type := {
  status : Z;
  body : list Byte.byte
}.

(** [res.content.readexactly(n)] of aiohttp's stream reader on a complete
    body: the first [n] bytes (none for [n <= 0]), or
    [IncompleteReadError] carrying all of a shorter body as [partial] (on
    the left). *)
Definition readexactly (n : Z) (stream : list Byte.byte)
    : list Byte.byte + list Byte.byte :=
  if n <=? Z.of_nat (length stream)
  then inr (take (Z.to_nat n) stream)
  else inl stream.

(** The result of [get_repo_zip]: [None], [False], or bytes. *)
Inductive zip_result : Type :=
| ZipNone
| ZipFalse
| ZipBytes (data : list Byte.byte).

(** [not files]. *)
Definition zip_falsy (z : zip_result) : bool :=
  match z with
  | ZipNone | ZipFalse => true
  | ZipBytes data => match data with [] => true | _ => false end
  end.

(** [GitHubAPI.get_repo_zip], after [normalize_repository]. *)
Definition get_repo_zip (session_get : string -> http_response) (repo : string)
    (size_threshold : Z) : zip_result :=
  if ((count_char "/" repo =? 0) || (1 <? count_char "/" repo))%nat then ZipNone
  else
    let res := session_get (BASE_URL +:+ "/repos/" +:+ repo +:+ "/zipball") in
    if status res =? 200 then
      match readexactly size_threshold (body res) with
      | inl partial => ZipBytes partial
      | inr _ => ZipFalse
      end
    else ZipNone.

End GitHub.

(** ** The lines-of-code command: cogs/github/other/loc.py *)

Module Loc.
Import Py GitHub.

(** [int(25 * (1024 ** 2))]. *)
Definition _25MB_BYTES : Z := 26214400.

(** What one invocation sees of the outside: [ctx.__nocache__],
    [ctx.message.id], the answer of [github.get_repo], the HTTP layer, the
    number of entries the repository's ignore patterns remove from the
    unpacked tree, and the parsed report of the line counter ([None] when
    it exits with a nonzero code). *)
Record world : Type := {
  nocache : bool;
  message_id : Z;
  get_repo : string -> pyval;
  session_get : string -> http_response;
  c_removed : Z;
  cloc : option pyval
}.

(** What an invocation does to the outside, in order. *)
Inductive effect : Type :=
| EnsureTmp
| WriteZip (path : string) (data : list Byte.byte)
| Unzip (zip dir : string)
| ReadConfig (repo : string)
| RunCloc (dir : string)
| Cleanup (dir zip : string).

(** [LinesOfCode.process_repo]: the value returned, [loc_cache]
    afterwards, and the effects. *)
Definition process_repo (w : world) (loc_cache : gmap string (pyval * Z))
    (repo : string)
    : option (pyval * Z) * gmap string (pyval * Z) * list effect :=
  let repo := if nocache w then repo else lower repo in
  match (if nocache w then None else loc_cache !! repo) with
  | Some cached => (Some cached, loc_cache, [])
  | None =>
      let tmp_dir_path := "./tmp/" +:+ str_of_int (message_id w) in
      let tmp_zip_path := tmp_dir_path +:+ ".zip" in
      let files := get_repo_zip (session_get w) repo _25MB_BYTES in
      if zip_falsy files
      then (None, loc_cache, [EnsureTmp; Cleanup tmp_dir_path tmp_zip_path])
      else
        let data := match files with ZipBytes data => data | _ => [] end in
        let started :=
          [EnsureTmp; WriteZip tmp_zip_path data;
           Unzip tmp_zip_path tmp_dir_path; ReadConfig repo;
           RunCloc tmp_dir_path] in
        match cloc w with
        | Some output =>
            (Some (output, c_removed w),
             <[repo := (output, c_removed w)]> loc_cache,
             started ++ [Cleanup tmp_dir_path tmp_zip_path])
        | None =>
            (None, loc_cache, started ++ [Cleanup tmp_dir_path tmp_zip_path])
        end
  end.

(** The footer of the report. *)
Inductive footer : Type :=
| Credit
| WithCountPlural (count : Z)
| WithCountSingular.

(** What the command answers: [ctx.error] with a locale entry, or the
    report embed built from the counter's output. *)
Inductive reply : Type :=
| Error (entry : string)
| Report (repo : string) (r : pyval) (output : pyval) (foot : footer).

(** [LinesOfCode.lines_of_code_command], after [normalize_repository]. *)
Definition lines_of_code_command (w : world) (loc_cache : gmap string (pyval * Z))
    (repo : string) : reply * gmap string (pyval * Z) * list effect :=
  let r := get_repo w repo in
  if negb (truthy r) then (Error "generic.nonexistent.repo.base", loc_cache, [])
  else
    match process_repo w loc_cache repo with
    | (None, loc_cache', effects) => (Error "loc.file_too_big", loc_cache', effects)
    | (Some (output, count), loc_cache', effects) =>
        (Report repo r output
           (if count =? 0 then Credit
            else if 1 <? count then WithCountPlural count else WithCountSingular),
         loc_cache', effects)
    end.

(** Whether the line counter ran. *)
Definition counted (effects : list effect) : bool :=
  existsb (fun e => match e with RunCloc _ => true | _ => false end) effects.

End Loc.

(** ** The preference store: lib/structs/db/user_collection.py *)

Module UserCollection.
Import Py.

(** A stored value: an int (a Discord id) or a string. *)
Definition bson : Type := Z + string.

(** What [setitem] validates against: the three lookups of the GitHub API
    wrapper and the [name] of every entry of [mgr.locale.languages]. *)
Record validators : Type := {
  get_user : string -> pyval;
  get_repo : string -> pyval;
  get_org : string -> pyval;
  languages : list string
}.

(** The collection: documents by [_id], each held as its other fields. *)
Abbreviation collection := (gmap bson (gmap string bson)).

(** [find_one({"_id": _id})]: the document as a dict, [_id] included. *)
Definition find_one (c : collection) (_id : bson) : option (gmap string bson) :=
  (fun fields => <["_id" := _id]> fields) <$> c !! _id.

(** The document selected by a filter that is a whole document, as
    [find_one] returned it. *)
Definition matched (c : collection) (query : gmap string bson) : option bson :=
  match query !! "_id" with
  | Some _id => if decide (find_one c _id = Some query) then Some _id else None
  | None => None
  end.

(** [update_one(query, {"$unset": {field: ""}})].  The server refuses to
    touch [_id]. *)
Definition update_one_unset (c : collection) (query : gmap string bson)
    (field : string) : exn + collection :=
  match matched c query with
  | Some _id =>
      if decide (field = "_id") then inl WriteError
      else inr (alter (delete field) _id c)
  | None => inr c
  end.

(** [update_one(query, {"$set": {item: value}})].  The server refuses to
    change [_id]. *)
Definition update_one_set (c : collection) (query : gmap string bson)
    (item : string) (value : bson) : exn + collection :=
  match matched c query with
  | Some _id =>
      if decide (item = "_id") then
        if decide (value = _id) then inr c else inl WriteError
      else inr (alter (insert item value) _id c)
  | None => inr c
  end.

(** [insert_one(doc)] for a document that names its [_id]. *)
Definition insert_one (c : collection) (doc : gmap string bson) : exn + collection :=
  match doc !! "_id" with
  | Some _id =>
      match c !! _id with
      | Some _ => inl WriteError
      | None => inr (<[_id := delete "_id" doc]> c)
      end
  | None => inl KeyError
  end.

(** [find_one_and_delete({"_id": _id})]. *)
Definition find_one_and_delete (c : collection) (_id : bson) : collection :=
  delete _id c.

(** [UserCollection.delitem], after [normalize_identity]. *)
Definition delitem (c : collection) (_id : Z) (field : string)
    : exn + (bool * collection) :=
  match find_one c (inl _id) with
  | Some query =>
      if decide (is_Some (query !! field)) then
        match update_one_unset c query field with
        | inl e => inl e
        | inr c1 =>
            let query := delete field query in
            if decide (size query = 1%nat)
            then inr (true, find_one_and_delete c1 (inl _id))
            else inr (true, c1)
        end
      else inr (false, c)
  | None => inr (false, c)
  end.

(** [UserCollection.getitem]. *)
Definition getitem (c : collection) (_id : Z) (item : string) : option bson :=
  match find_one c (inl _id) with
  | Some query => query !! item
  | None => None
  end.

(** The check [setitem] makes before it writes. *)
Definition valid (env : validators) (item value : string) : bool :=
  if String.eqb item "user" then is_not_none (get_user env value)
  else if String.eqb item "repo" then is_not_none (get_repo env value)
  else if String.eqb item "org" then is_not_none (get_org env value)
  else if String.eqb item "locale" then existsb (fun name => String.eqb name value) (languages env)
  else true.

(** [UserCollection.setitem], after [normalize_identity]. *)
Definition setitem (env : validators) (c : collection) (_id : Z) (item value : string)
    : exn + (bool * collection) :=
  if valid env item value then
    match find_one c (inl _id) with
    | Some query =>
        match update_one_set c query item (inr value) with
        | inl e => inl e
        | inr c' => inr (true, c')
        end
    | None =>
        match insert_one c (<[item := inr value]> {["_id" := inl _id]}) with
        | inl e => inl e
        | inr c' => inr (true, c')
        end
    end
  else inr (false, c).

End UserCollection.

(** ** Truncated lists: cogs/github/base/user.py, cogs/rust/crates.py *)

Module Commands.
Import Py.

(** What a handler takes from its context: [ctx.fmt] (locale prefix,
    entry, arguments) and the embed colour [mgr.c.rounded]. *)
Record context : Type := {
  fmt : string -> string -> list string -> string;
  rounded : Z
}.

(** The fields read from a user object and from a repository object. *)
Record user_data : Type := {
  avatarUrl : string
}.

Record repo_data : Type := {
  name : string;
  html_url : string
}.

Record embed : Type := {
  title : string;
  description : string;
  color : Z;
  url : string;
  footer : option string;
  thumbnail : option string
}.

Inductive response : Type :=
| Error (entry : string)
| Send (e : embed).

Definition newline : string := String (ascii_of_nat 10) "".

(** One line of the description of the repository list. *)
Definition repo_line (x : repo_data) : string :=
  ":white_small_square: [**" +:+ name x +:+ "**](" +:+ html_url x +:+ ")".

(** [User.user_repos_command], given what [get_user] and
    [get_user_repos] returned. *)
Definition user_repos_command (ctx : context) (user : string)
    (u : option user_data) (repos : option (list repo_data)) : exn + response :=
  match u with
  | None => inr (Error "generic.nonexistent.user.base")
  | Some u =>
      match repos with
      | None | Some [] => inr (Error "user.repos.no_public")
      | Some repos =>
          match user with
          | EmptyString => inl IndexError
          | String c _ =>
              let title :=
                if isupper_ascii c then fmt ctx "user repos" "owner" [user]
                else lower (fmt ctx "user repos" "owner" [user]) in
              let c := Z.of_nat (length repos) in
              inr (Send
                {| title := title;
                   description := String.concat newline (map repo_line (take 15 repos));
                   color := rounded ctx;
                   url := "https://github.com/" +:+ user;
                   footer :=
                     if 15 <? c
                     then Some (fmt ctx "user repos" "more" [str_of_int (c - 15)])
                     else None;
                   thumbnail := Some (avatarUrl u) |})
          end
      end
  end.

(** An owner of a crate as the crates.io API lists it. *)
Record owner : Type := {
  owner_name : string;
  kind : string;
  owner_url : string;
  avatar : string
}.

Definition owner_link (o : owner) : string :=
  "[" +:+ owner_name o +:+ (if String.eqb (kind o) "team" then " `(team)`" else "")
  +:+ "](" +:+ owner_url o +:+ ")".

(** The suffix [more_authors] of [Crates.crate_info_command]. *)
Definition more_authors (ctx : context) (crate_url : string) (owners : list owner) : string :=
  if 5 <? Z.of_nat (length owners)
  then " " +:+ fmt ctx "crates info" "more_authors"
         ["[" +:+ str_of_int (Z.of_nat (length owners) - 5) +:+ "](" +:+ crate_url +:+ ")"]
  else "".

(** The line [authors] of [Crates.crate_info_command]. *)
Definition authors (ctx : context) (crate_url : string) (owners : list owner) : string :=
  fmt ctx "crates info" "authors" [String.concat ", " (map owner_link (take 5 owners))]
  +:+ more_authors ctx crate_url owners +:+ newline.

End Commands.

(** *** Counting what a session does *)

Module LinesViewLog.
Import Py LinesView.

(** Presses that end in a call of [message.edit]. *)
Definition edits_message (p : press) : bool :=
  match p with
  | Step _ fetched => truthy_text fetched
  | Revert _ => true
  end.

End LinesViewLog.

(** *** Sequences of writes to the preference store *)

Module UserCollectionOps.
Import Py UserCollection.

(** A write: [setitem] or [delitem] on some id and field. *)
Inductive op : Type :=
| SetItem (_id : Z) (item value : string)
| DelItem (_id : Z) (field : string).

(** The store after a write; a write that raises leaves it as it was. *)
Definition apply_op (env : validators) (c : collection) (o : op) : collection :=
  match o with
  | SetItem _id item value =>
      match setitem env c _id item value with
      | inr (_, c') => c'
      | inl _ => c
      end
  | DelItem _id field =>
      match delitem c _id field with
      | inr (_, c') => c'
      | inl _ => c
      end
  end.

Definition apply_ops (env : validators) (os : list op) (c : collection) : collection :=
  fold_left (apply_op env) os c.

(** The field a write names. *)
Definition op_field (o : op) : string :=
  match o with
  | SetItem _ item _ => item
  | DelItem _ field => field
  end.

(** No record is empty: each holds a field besides [_id]. *)
Definition no_empty_record (c : collection) : Prop :=
  forall _id fields, c !! _id = Some fields ->
    exists k, k <> "_id"%string /\ is_Some (fields !! k).

End UserCollectionOps.

(** *** The result sheet of the lines-of-code command *)

Module LocSheet.
Import Py.

Definition newline : string := String (ascii_of_nat 10) "".

Definition is_open (c : ascii) : bool := Ascii.eqb c "{".
Definition is_close (c : ascii) : bool := Ascii.eqb c "}".

(** [template.format(arg)] for templates built of text, the escapes
    [{{] and [}}], and at most one field [{}].  [None] stands for the
    calls left out of the model: those that raise (a brace alone, a
    second [{}] with one argument) and those with a field that is named,
    numbered, converted or formatted.  [used] tells that the argument has
    been consumed. *)
Fixpoint format_go (arg : string) (used : bool) (template : string) : option string :=
  match template with
  | EmptyString => Some EmptyString
  | String c t1 =>
      if is_open c then
        match t1 with
        | String d t2 =>
            if is_open d then String c <$> format_go arg used t2
            else if is_close d then
              if used then None else String.append arg <$> format_go arg true t2
            else None
        | EmptyString => None
        end
      else if is_close c then
        match t1 with
        | String d t2 =>
            if is_close d then String c <$> format_go arg used t2 else None
        | EmptyString => None
        end
      else String c <$> format_go arg used t1
  end.

Definition format (template arg : string) : option string :=
  format_go arg false template.

(** [v[key]] for a value parsed from JSON; [None] when it raises. *)
Definition subscript (v : pyval) (key : string) : option pyval :=
  match v with
  | PyDict kv => snd <$> find (fun entry => String.eqb (fst entry) key) kv
  | _ => None
  end.

(** How an f-string prints a scalar; containers are left out. *)
Definition format_value (v : pyval) : option string :=
  match v with
  | PyNone => Some "None"%string
  | PyBool b => Some (if b then "True" else "False")%string
  | PyInt n => Some (str_of_int n)
  | PyStr s => Some s
  | PyList _ | PyDict _ => None
  end.

(** [s[:-n]]. *)
Definition drop_last (n : nat) (s : string) : string :=
  String.substring 0 (String.length s - n) s.

(** [k not in ('header', 'SUM')]. *)
Definition is_language (k : string) : bool :=
  negb (String.eqb k "header" || String.eqb k "SUM").

(** The loop of [prepare_result_sheet] over [data.items()]. *)
Fixpoint sheet_loop (items : list (string * pyval)) (threshold : Z) (result : string)
    : option string :=
  match items with
  | [] => Some result
  | (k, v) :: rest =>
      if threshold =? 0 then Some result
      else if is_language k then
        code ← subscript v "code" ≫= format_value;
        result ← format result (k +:+ ": " +:+ code +:+ newline +:+ "{}");
        sheet_loop rest (threshold - 1) result
      else sheet_loop rest threshold result
  end.

(** [LinesOfCode.prepare_result_sheet] on the items of the report, in
    order. *)
Definition prepare_result_sheet (data : list (string * pyval)) : option string :=
  result ← sheet_loop data 15 ("```py" +:+ newline +:+ "{}```");
  Some (drop_last 5 result +:+ "```").

(** The line of the sheet for one language. *)
Definition sheet_line (entry : string * pyval) : string :=
  fst entry +:+ ": " +:+ default "" (subscript (snd entry) "code" ≫= format_value)
  +:+ newline.

(** Text that holds no brace. *)
Definition brace_free (s : string) : Prop :=
  count_char "{" s = 0%nat /\ count_char "}" s = 0%nat.

(** An entry the sheet can print: a count is there, and neither the name
    nor the count holds a brace. *)
Definition printable (entry : string * pyval) : Prop :=
  brace_free (fst entry) /\
  exists code, subscript (snd entry) "code" ≫= format_value = Some code /\ brace_free code.

End LocSheet.

(** *** Download statistics: cogs/rust/crates.py *)

Module CratesDownloads.
Import Py Commands.

(** One day of the download history. *)
Record day : Type := {
  date : string;
  downloads : Z
}.

(** [data[-n:]]. *)
Definition last_days (n : nat) (data : list day) : list day :=
  drop (length data - n) data.

(** [sum(item['downloads'] for item in days)]. *)
Definition total (days : list day) : Z :=
  foldr (fun item acc => downloads item + acc) 0 days.

(** The answer of the command: an error entry, or the embed with the
    chart drawn from the columns [date] and [downloads]. *)
Record chart : Type := {
  chart_title : string;
  chart_url : string;
  chart_description : string;
  chart_thumbnail : string;
  chart_footer : string;
  chart_points : list (string * Z);
  chart_filename : string
}.

Inductive answer : Type :=
| NotFound (entry : string)
| Chart (c : chart).

(** The three figures of the description: [yesterday_dl],
    [last_week_dl], [last_month_dl]. *)
Definition figures (data : list day) : Z * Z * Z :=
  (downloads (List.last data {| date := ""; downloads := 0 |}),
   total (last_days 7 data),
   total (last_days 30 data)).

(** [Crates.crate_downloads_command], given what [get_crate_downloads]
    returned ([None] or a list); [crates_logo] is [mgr.i.crates_logo]. *)
Definition crate_downloads_command (ctx : context) (crates_logo : string)
    (project : string) (data : option (list day)) : answer :=
  match data with
  | None | Some [] => NotFound "generic.nonexistent.rust_crate"
  | Some data =>
      let '(yesterday_dl, last_week_dl, last_month_dl) := figures data in
      let page := "https://crates.io/crates/" +:+ lower (replace project "." "-") in
      Chart
        {| chart_title :=
             fmt ctx "crates downloads" "title"
               [project; str_of_int (Z.of_nat (length data) - 1)];
           chart_url := page;
           chart_description :=
             fmt ctx "crates downloads" "stats yesterday" [str_of_int yesterday_dl]
             +:+ newline
             +:+ fmt ctx "crates downloads" "stats last_week" [str_of_int last_week_dl]
             +:+ newline
             +:+ fmt ctx "crates downloads" "stats last_month" [str_of_int last_month_dl];
           chart_thumbnail := crates_logo;
           chart_footer := "crates.downloads.footer";
           chart_points := map (fun item => (date item, downloads item)) data;
           chart_filename := project +:+ "-downloads-overall.png" |}
  end.

End CratesDownloads.

(** *** The user command: cogs/github/base/user.py *)

Module UserInfo.
Import Py Commands UserCollection.

(** The keys of a user object the info command reads.  [bio], [company]
    and [twitterUsername] are [None] when the key is missing or holds
    [None]; [websiteUrl] and [contributions] when they hold [None]. *)
Record user_object : Type := {
  u_url : string;
  contributions : option (Z * Z);
  organizations : Z;
  bio : option string;
  company : option string;
  followers : Z;
  following : Z;
  public_repos : Z;
  createdAt : string;
  websiteUrl : option string;
  twitterUsername : option string;
  u_avatarUrl : string
}.

(** What the command takes from the locale and the manager besides
    [ctx.fmt]: the entry of [ctx.l] at a dotted path, [str.format] and
    [str.capitalize] on such entries, and
    [mgr.github_to_discord_timestamp]. *)
Record locale : Type := {
  l : string -> string;
  format : string -> list string -> string;
  capitalize : string -> string;
  github_to_discord_timestamp : string -> string
}.

Record field : Type := {
  field_name : string;
  field_value : string;
  inline : bool
}.

Record info_embed : Type := {
  info_color : Z;
  info_title : string;
  info_url : string;
  info_fields : list field;
  info_thumbnail : string
}.

(** [s.startswith(('https://', 'http://'))]. *)
Definition has_scheme (s : string) : bool :=
  String.prefix "https://" s || String.prefix "http://" s.

(** The line [orgs]. *)
Definition orgs (loc : locale) (orgs_c : Z) : string :=
  let orgs :=
    (if negb (orgs_c =? 0)
     then format loc (l loc "user.info.orgs.plural") [str_of_int orgs_c]
     else l loc "user.info.orgs.no_orgs") +:+ newline in
  if orgs_c =? 1 then l loc "user.info.orgs.singular" +:+ newline else orgs.

(** The phrases [followers] and [following]; [what] is one of these two
    words. *)
Definition follow_phrase (ctx : context) (loc : locale) (what none : string)
    (count : Z) (url : string) : string :=
  let phrase :=
    if count =? 0 then l loc ("user.info." +:+ what +:+ "." +:+ none)
    else fmt ctx "user info" (what +:+ " plural")
           [str_of_int count; url +:+ "?tab=" +:+ what] in
  if count =? 1
  then fmt ctx "user info" (what +:+ " singular") [url +:+ "?tab=" +:+ what]
  else phrase.

(** The line [repos]. *)
Definition repos (ctx : context) (loc : locale) (public_repos : Z) (url : string) : string :=
  let repos :=
    if public_repos =? 0 then l loc "user.info.repos.no_repos" +:+ newline
    else fmt ctx "user info" "repos plural"
           [str_of_int public_repos; url +:+ "?tab=repositories"] +:+ newline in
  if public_repos =? 1
  then fmt ctx "user info" "repos singular" [url +:+ "?tab=repositories"] +:+ newline
  else repos.

(** The list [links]: the website and the Twitter page, each a target
    (or [None]) and a caption. *)
Definition links (loc : locale) (u : user_object) : list (option string * string) :=
  let blog :=
    match websiteUrl u with
    | Some w_url =>
        if negb (String.eqb w_url "")
        then (Some (if has_scheme w_url then w_url else "https://" +:+ w_url),
              l loc "user.info.glossary.3")
        else (None, capitalize loc (l loc "glossary.website"))
    | None => (None, capitalize loc (l loc "glossary.website"))
    end in
  let twitter :=
    (match twitterUsername u with
     | Some name => Some ("https://twitter.com/" +:+ name)
     | None => None
     end, "Twitter"%string) in
  [blog; twitter].

(** The comprehension [link_strings]. *)
Definition link_strings (lnks : list (option string * string)) : list string :=
  omap (fun lnk =>
          match fst lnk with
          | Some target =>
              if negb (String.eqb target "")
              then Some ("- [" +:+ snd lnk +:+ "](" +:+ target +:+ ")")
              else None
          | None => None
          end) lnks.

(** The embed of [user_info_command] for a user that was found;
    [user[0]] raises on an empty name. *)
Definition user_info_embed (ctx : context) (loc : locale) (user : string)
    (u : user_object) : exn + info_embed :=
  match user with
  | EmptyString => inl IndexError
  | String c _ =>
      let title :=
        if isupper_ascii c then fmt ctx "user info" "title" [user]
        else fmt ctx "user info" "title" [lower user] in
      let bio_field :=
        match bio u with
        | Some text =>
            if (0 <? String.length text)%nat
            then [ {| field_name :=
                        ":notepad_spiral: " +:+ l loc "user.info.glossary.0" +:+ ":";
                      field_value := "```" +:+ text +:+ "```";
                      inline := true |} ]
            else []
        | None => []
        end in
      let occupation :=
        match company u with
        | Some name => format loc (l loc "user.info.company" +:+ newline) [name]
        | None => l loc "user.info.no_company" +:+ newline
        end in
      let followers :=
        follow_phrase ctx loc "followers" "no_followers" (followers u) (u_url u) in
      let following :=
        follow_phrase ctx loc "following" "no_following" (following u) (u_url u) in
      let follow :=
        followers +:+ " " +:+ l loc "user.info.linking_word" +:+ " " +:+ following in
      let contrib :=
        match contributions u with
        | Some (total, today) =>
            newline
            +:+ fmt ctx "user info" "contributions" [str_of_int total; str_of_int today]
            +:+ newline
        | None => ""
        end in
      let joined_at :=
        fmt ctx "user info" "joined_at" [github_to_discord_timestamp loc (createdAt u)]
        +:+ newline in
      let info :=
        joined_at +:+ repos ctx loc (public_repos u) (u_url u) +:+ occupation
        +:+ orgs loc (organizations u) +:+ follow +:+ contrib in
      let info_field :=
        {| field_name := ":mag_right: " +:+ l loc "user.info.glossary.1" +:+ ":";
           field_value := info; inline := false |} in
      let link_field :=
        match link_strings (links loc u) with
        | [] => []
        | strings =>
            [ {| field_name := ":link: " +:+ l loc "user.info.glossary.2" +:+ ":";
                 field_value := String.concat newline strings; inline := false |} ]
        end in
      inr {| info_color := rounded ctx;
             info_title := title;
             info_url := u_url u;
             info_fields := bio_field ++ [info_field] ++ link_field;
             info_thumbnail := u_avatarUrl u |}
  end.

(** What a command answers: [ctx.error] with a locale entry, or the
    embed with the URL behind its button. *)
Inductive reply : Type :=
| Failed (entry : string)
| Sent (e : info_embed) (view_on_url : string).

(** How an invocation ends: with a reply and the store as it leaves it,
    with an exception, or outside the model (the stored user is not a
    string, which [setitem] never writes). *)
Inductive outcome : Type :=
| Replied (r : reply) (c : collection)
| Raised (e : exn)
| NotModelled.

(** What an invocation reads from outside: the author's id, [ctx.data],
    and the answer of [github.get_user] ([None] for a falsy one). *)
Record invocation : Type := {
  author : Z;
  data : option user_object;
  get_user : string -> option user_object
}.

(** The body of [user_info_command] for a non-empty [user];
    [invoked_with_stored] is the flag of that name on [ctx]. *)
Definition user_info_body (ctx : context) (loc : locale) (inv : invocation)
    (invoked_with_stored : bool) (c : collection) (user : string) : outcome :=
  let u := match data inv with Some d => Some d | None => get_user inv user end in
  match u with
  | None =>
      if invoked_with_stored then
        match delitem c (author inv) "user" with
        | inr (_, c') => Replied (Failed "generic.nonexistent.user.qa_changed") c'
        | inl e => Raised e
        end
      else Replied (Failed "generic.nonexistent.user.base") c
  | Some u =>
      match user_info_embed ctx loc user u with
      | inr embed => Replied (Sent embed (u_url u)) c
      | inl e => Raised e
      end
  end.

(** [not user] for an [Optional[str]]. *)
Definition no_user (user : option string) : bool := negb (truthy_text user).

(** [User.user_command_group]; [ctx.invoke] of the info command with a
    non-empty user enters its body. *)
Definition user_command_group (ctx : context) (loc : locale) (inv : invocation)
    (invoked_with_stored : bool) (c : collection) (user : option string) : outcome :=
  if no_user user then
    match getitem c (author inv) "user" with
    | Some (inr stored) =>
        if negb (String.eqb stored "")
        then user_info_body ctx loc inv true c stored
        else Replied (Failed "generic.nonexistent.user.qa") c
    | Some (inl stored) =>
        if negb (stored =? 0) then NotModelled
        else Replied (Failed "generic.nonexistent.user.qa") c
    | None => Replied (Failed "generic.nonexistent.user.qa") c
    end
  else user_info_body ctx loc inv invoked_with_stored c (default "" user).

(** [User.user_info_command]. *)
Definition user_info_command (ctx : context) (loc : locale) (inv : invocation)
    (invoked_with_stored : bool) (c : collection) (user : option string) : outcome :=
  if no_user user
  then user_command_group ctx loc inv invoked_with_stored c None
  else user_info_body ctx loc inv invoked_with_stored c (default "" user).

End UserInfo.

(** *** The migration script: migrations/2021-03-13_uid_to_oid.py *)

Module Migration.
Import Py UserCollection.






End Migration.

(** * Properties *)

(** ** The line-range view *)

Module LinesViewFacts.
Import Py LinesView.

Lemma get_next_lines_clamps_unclamped (l1 : Z) (l2 : option Z) (forward : bool) :
  get_next_lines l1 l2 forward =
  (Z.max (fst (unclamped l1 l2 forward)) 1, Z.max (snd (unclamped l1 l2 forward)) 1).
Proof.
  unfold get_next_lines, unclamped.
  destruct forward; [destruct l2 as [b|] |]; reflexivity.
Qed.

Lemma get_next_lines_floor (l1 : Z) (l2 : option Z) (forward : bool) :
  1 <= fst (get_next_lines l1 l2 forward) /\ 1 <= snd (get_next_lines l1 l2 forward).
Proof.
  rewrite get_next_lines_clamps_unclamped. simpl. split; apply Z.le_max_r.
Qed.

(** C1. For every [l1 >= 1] and [l2] an integer or absent: a forward step
    gives [l1' = l2 + 1], [l2' = l2 + 25] when [l2] is set, and leaves [l1]
    alone with [l2' = l1 + 25] when it is absent; a backward step gives
    [l2' = l1 - 1], [l1' = l1 - 25]; and in every case both components of
    the result are the maximum of that value and 1. *)
Theorem get_next_lines_transitions (l1 : Z) (l2 : option Z) :
  1 <= l1 ->
  (forall b, l2 = Some b ->
     get_next_lines l1 l2 true = (Z.max (b + 1) 1, Z.max (b + 25) 1)) /\
  (l2 = None ->
     get_next_lines l1 l2 true = (l1, l1 + 25) /\
     (l1, l1 + 25) = (Z.max l1 1, Z.max (l1 + 25) 1)) /\
  get_next_lines l1 l2 false = (Z.max (l1 - 25) 1, Z.max (l1 - 1) 1) /\
  (forall forward,
     1 <= fst (get_next_lines l1 l2 forward) /\
     1 <= snd (get_next_lines l1 l2 forward)).
Proof.
  intros Hl1. repeat split.
  - intros b ->. reflexivity.
  - subst l2. unfold get_next_lines. f_equal; lia.
  - f_equal; lia.
  - apply get_next_lines_floor.
  - apply get_next_lines_floor.
Qed.

Lemma get_next_lines_transitions_witness :
  get_next_lines 3 (Some 7) true = (8, 32) /\
  get_next_lines 3 None true = (3, 28) /\
  get_next_lines 3 (Some 7) false = (1, 2).
Proof.
  destruct (get_next_lines_transitions 3 (Some 7) ltac:(lia)) as (Hf & _ & Hb & _).
  destruct (get_next_lines_transitions 3 None ltac:(lia)) as (_ & Hn & _).
  split; [exact (Hf 7 eq_refl) | split; [exact (proj1 (Hn eq_refl)) | exact Hb]].
Defined.

Lemma set_labels_originals (v : view) (rb rf : Z * Z) :
  originals (set_labels v rb rf) = originals v.
Proof. reflexivity. Qed.

Lemma handle_originals (p : press) (st : ui) :
  originals (the_view (handle p st)) = originals (the_view st).
Proof.
  destruct p as [forward fetched | fetched]; simpl.
  - unfold button_callback.
    destruct (get_next_lines _ _ forward) as [n1 n2].
    destruct (truthy_text fetched); reflexivity.
  - reflexivity.
Qed.

Lemma session_snoc (ps : list press) (p : press) (st : ui) :
  session (ps ++ [p]) st = handle p (session ps st).
Proof. unfold session. rewrite fold_left_app. reflexivity. Qed.

Lemma session_originals (ps : list press) (st : ui) :
  originals (the_view (session ps st)) = originals (the_view st).
Proof.
  induction ps as [|p ps IH] using rev_ind; [reflexivity|].
  rewrite session_snoc, handle_originals. exact IH.
Qed.

Lemma button_callback_enables_revert (forward : bool) (fetched : option string) (st : ui) :
  revert_disabled (the_view (button_callback forward fetched st)) = false.
Proof.
  unfold button_callback.
  destruct (get_next_lines _ _ forward) as [n1 n2].
  destruct (truthy_text fetched); reflexivity.
Qed.

Lemma revert_callback_window (fetched : option string) (st : ui) :
  l1 (the_view (revert_callback fetched st)) = __original_l1__ (the_view st) /\
  l2 (the_view (revert_callback fetched st)) = __original_l2__ (the_view st) /\
  revert_disabled (the_view (revert_callback fetched st)) = true.
Proof. repeat split. Qed.

Lemma reverts_keep_disabled (ps : list press) (st : ui) :
  only_reverts ps ->
  revert_disabled (the_view st) = true ->
  revert_disabled (the_view (session ps st)) = true.
Proof.
  intros Hps. revert st.
  induction Hps as [|p ps Hp _ IH]; intros st Hst; [exact Hst|].
  destruct p as [? ?|fetched]; [contradiction|].
  apply IH. reflexivity.
Qed.

(** C2. Whatever presses came before, a press of the revert button sets
    [(l1, l2)] to the pair [__init__] captured, which is
    [(max(first_line_number, 1), second_line_number)]; it leaves the revert
    button disabled, further reverts keep it so, and the next forward or
    backward press enables it again. *)
Theorem revert_restores_originals (lines_url : string) (parsed : re_match)
    (text fetched : option string) (before : list press) :
  let v0 := init lines_url parsed in
  let st := revert_callback fetched (session before (opened lines_url parsed text)) in
  (l1 (the_view st), l2 (the_view st)) = (__original_l1__ v0, __original_l2__ v0) /\
  (__original_l1__ v0, __original_l2__ v0) =
    (Z.max (first_line_number parsed) 1, second_line_number parsed) /\
  revert_disabled (the_view st) = true /\
  (forall ps, only_reverts ps -> revert_disabled (the_view (session ps st)) = true) /\
  (forall forward fetched',
     revert_disabled (the_view (button_callback forward fetched' st)) = false).
Proof.
  intros v0 st.
  pose proof (session_originals before (opened lines_url parsed text)) as Ho.
  unfold originals in Ho. simpl in Ho.
  injection Ho as H1 H2 _ _.
  repeat split.
  - subst st. simpl. rewrite H1, H2. reflexivity.
  - intros ps Hps. apply reverts_keep_disabled; [exact Hps | reflexivity].
  - intros forward fetched'. apply button_callback_enables_revert.
Qed.

Lemma revert_restores_originals_witness :
  let parsed := {| groups := [GStr "github"; GStr "o/r"; GStr "main"; GStr "a.py";
                              GStr "40"; GStr "45"];
                   platform_group := "github";
                   first_line_number := 40;
                   second_line_number := Some 45 |} in
  let st := revert_callback (Some "old")
              (session [Step true (Some "x"); Step true None; Step false (Some "y")]
                 (opened "https://github.com/o/r/blob/main/a.py#L40-L45" parsed (Some "old"))) in
  (l1 (the_view st), l2 (the_view st)) = (40, Some 45) /\
  revert_disabled (the_view (session [Revert None] st)) = true.
Proof.
  intros parsed st.
  destruct (revert_restores_originals
              "https://github.com/o/r/blob/main/a.py#L40-L45" parsed (Some "old") (Some "old")
              [Step true (Some "x"); Step true None; Step false (Some "y")])
    as (Hw & _ & _ & Hr & _).
  split; [exact Hw|].
  apply Hr. repeat constructor.
Defined.

(** C4. When the fetch for the new range returns no text ([None] or the
    empty string), a forward or backward press leaves the message as it
    was: its content is the same, [message.edit] is not called, and the
    button labels are not touched.  The edit and the new labels happen
    exactly when the text is non-empty.  [button_callback] is total: no
    case of it raises. *)
Theorem step_without_text_is_silent (forward : bool) (fetched : option string) (st : ui) :
  let st' := button_callback forward fetched st in
  (truthy_text fetched = false ->
     content st' = content st /\ edits st' = edits st /\
     back_label (the_view st') = back_label (the_view st) /\
     forward_label (the_view st') = forward_label (the_view st)) /\
  (edits st' <> edits st -> truthy_text fetched = true) /\
  (truthy_text fetched = true ->
     edits st' = S (edits st) /\
     exists new, fetched = Some new /\ new <> ""%string /\
       the_view st' =
         set_labels (the_view st')
           (get_next_lines (l1 (the_view st')) (l2 (the_view st')) false)
           (get_next_lines (l1 (the_view st')) (l2 (the_view st')) true)).
Proof.
  intros st'. subst st'. unfold button_callback.
  destruct (get_next_lines _ _ forward) as [n1 n2].
  destruct (truthy_text fetched) eqn:Ht; simpl.
  - split; [discriminate|]. split; [reflexivity|]. intros _.
    split; [reflexivity|].
    destruct fetched as [new|]; [|discriminate].
    exists new. split; [reflexivity|]. split; [|reflexivity].
    intros ->. discriminate.
  - split; [intros _; repeat split|]. split; [congruence | discriminate].
Qed.

Lemma step_without_text_is_silent_witness :
  let st := opened "https://github.com/o/r/blob/main/a.py#L40"
              {| groups := [GStr "github"; GStr "o/r"; GStr "main"; GStr "a.py";
                            GStr "40"; GNone];
                 platform_group := "github";
                 first_line_number := 40;
                 second_line_number := None |} (Some "line 40") in
  content (button_callback true (Some "") st) = Some "line 40"%string /\
  edits (button_callback true None st) = 0%nat /\
  edits (button_callback true (Some "more") st) = 1%nat.
Proof.
  intros st.
  destruct (step_without_text_is_silent true (Some "") st) as (H1 & _ & _).
  destruct (step_without_text_is_silent true None st) as (H2 & _ & _).
  destruct (step_without_text_is_silent true (Some "more") st) as (_ & _ & H3).
  split; [exact (proj1 (H1 eq_refl))|].
  split; [exact (proj1 (proj2 (H2 eq_refl))) | exact (proj1 (H3 eq_refl))].
Defined.

(** *** Forward and back again *)

Lemma steps_app (ds es : list bool) (w : window) :
  steps (ds ++ es) w = steps es (steps ds w).
Proof. revert w. induction ds as [|d ds IH]; intros w; simpl; [reflexivity | apply IH]. Qed.

Lemma any_clamp_app (ds es : list bool) (w : window) :
  any_clamp (ds ++ es) w = any_clamp ds w || any_clamp es (steps ds w).
Proof.
  revert w. induction ds as [|d ds IH]; intros w; simpl; [reflexivity|].
  rewrite IH, orb_assoc. reflexivity.
Qed.

Lemma step_floor (d : bool) (w : window) :
  exists a c, step d w = (a, Some c) /\ 1 <= a /\ 1 <= c.
Proof.
  unfold step. pose proof (get_next_lines_floor (fst w) (snd w) d) as [Ha Hc].
  destruct (get_next_lines (fst w) (snd w) d) as [a c]. eauto.
Qed.

Lemma forward_run (n : nat) (a b : Z) :
  0 <= b ->
  steps (replicate (S n) true) (a, Some b) =
    (b + 25 * Z.of_nat n + 1, Some (b + 25 * (Z.of_nat n + 1))) /\
  any_clamp (replicate (S n) true) (a, Some b) = false.
Proof.
  revert a b. induction n as [|n IH]; intros a b Hb.
  - cbn [replicate steps any_clamp step get_next_lines clamps unclamped fst snd].
    split.
    + f_equal; [|f_equal]; lia.
    + rewrite orb_false_r. apply orb_false_intro; apply Z.ltb_ge; lia.
  - change (replicate (S (S n)) true) with (true :: replicate (S n) true).
    cbn [steps any_clamp].
    assert (Hs : step true (a, Some b) = (b + 1, Some (b + 25))).
    { unfold step, get_next_lines. cbn [fst snd]. f_equal; [|f_equal]; lia. }
    rewrite Hs. destruct (IH (b + 1) (b + 25) ltac:(lia)) as [Hrun Hcl].
    rewrite Hrun, Hcl. split.
    + f_equal; [|f_equal]; lia.
    + rewrite orb_false_r. unfold clamps, unclamped. cbn [fst snd].
      apply orb_false_intro; apply Z.ltb_ge; lia.
Qed.

Lemma backward_run (m : nat) (x : Z) (l2 : option Z) :
  1 <= x ->
  steps (replicate (S m) false) (x + 25 * Z.of_nat m + 1, l2) =
    (Z.max (x - 24) 1, Some x) /\
  any_clamp (replicate (S m) false) (x + 25 * Z.of_nat m + 1, l2) = (x <? 25).
Proof.
  revert l2. induction m as [|m IH]; intros l2 Hx.
  - cbn [replicate steps any_clamp step get_next_lines clamps unclamped fst snd].
    split.
    + f_equal; [|f_equal]; lia.
    + rewrite orb_false_r.
      replace (x + 25 * Z.of_nat 0 + 1 - 1 <? 1) with false
        by (symmetry; apply Z.ltb_ge; lia).
      rewrite orb_false_r.
      destruct (Z.ltb_spec x 25); [apply Z.ltb_lt | apply Z.ltb_ge]; lia.
  - change (replicate (S (S m)) false) with (false :: replicate (S m) false).
    cbn [steps any_clamp].
    assert (Hs : step false (x + 25 * Z.of_nat (S m) + 1, l2) =
                 (x + 25 * Z.of_nat m + 1, Some (x + 25 * Z.of_nat (S m)))).
    { unfold step, get_next_lines. cbn [fst snd]. f_equal; [|f_equal]; lia. }
    rewrite Hs.
    destruct (IH (Some (x + 25 * Z.of_nat (S m))) Hx) as [Hrun Hcl].
    rewrite Hrun, Hcl. split; [reflexivity|].
    unfold clamps, unclamped. cbn [fst snd].
    replace (x + 25 * Z.of_nat (S m) + 1 - 25 <? 1) with false
      by (symmetry; apply Z.ltb_ge; lia).
    replace (x + 25 * Z.of_nat (S m) + 1 - 1 <? 1) with false
      by (symmetry; apply Z.ltb_ge; lia).
    reflexivity.
Qed.

(** From a window with a second line [b >= 1], [n >= 1] presses forward
    and [n] back end on [(max(b - 24, 1), b)], and a step clamps exactly
    when [b < 25]: it is the last one. *)
Lemma there_and_back_run (n : nat) (a b : Z) :
  1 <= b ->
  steps (there_and_back (S n)) (a, Some b) = (Z.max (b - 24) 1, Some b) /\
  any_clamp (there_and_back (S n)) (a, Some b) = (b <? 25).
Proof.
  intros Hb. unfold there_and_back.
  rewrite steps_app, any_clamp_app.
  destruct (forward_run n a b ltac:(lia)) as [Hrun Hcl].
  rewrite Hrun, Hcl.
  destruct (backward_run n b (Some (b + 25 * (Z.of_nat n + 1))) Hb) as [Hrun' Hcl'].
  rewrite Hrun', Hcl'. split; reflexivity.
Qed.

Lemma there_and_back_ends_set (n : nat) (w : window) :
  exists a c, steps (there_and_back (S n)) w = (a, Some c) /\ 1 <= a /\ 1 <= c.
Proof.
  unfold there_and_back.
  replace (replicate (S n) false) with (replicate n false ++ [false]).
  - rewrite app_assoc, steps_app. cbn [steps]. apply step_floor.
  - change [false] with (replicate 1 false). rewrite <- replicate_add.
    f_equal. lia.
Qed.

(** C3, as the code has it. For every window with [l1 >= 1] and every
    [n >= 1]: if [n] steps forward and then [n] steps backward end on the
    window they started from, then either no step clamped, and then
    [l2 = l1 + 24]; or the window was [(1, l2)] with [1 <= l2 < 25], and
    then the last step back clamped [l1 - 25] up to 1. *)
Theorem there_and_back_fixed_only_if (l1 : Z) (l2 : option Z) (n : nat) :
  1 <= l1 -> (1 <= n)%nat ->
  steps (there_and_back n) (l1, l2) = (l1, l2) ->
  (any_clamp (there_and_back n) (l1, l2) = false /\ l2 = Some (l1 + 24)) \/
  (any_clamp (there_and_back n) (l1, l2) = true /\
   l1 = 1 /\ exists b, l2 = Some b /\ 1 <= b < 25).
Proof.
  intros Hl1 Hn Hfix.
  destruct n as [|n]; [lia|].
  destruct (there_and_back_ends_set n (l1, l2)) as (a & c & Hend & Ha & Hc).
  rewrite Hend in Hfix. injection Hfix as -> <-.
  destruct (there_and_back_run n l1 c Hc) as [Hrun Hcl].
  rewrite Hend in Hrun. injection Hrun as Hrun.
  rewrite Hcl.
  destruct (Z.ltb_spec c 25) as [Hlt | Hge].
  - right. split; [reflexivity|]. split; [lia|]. exists c. split; [reflexivity | lia].
  - left. split; [reflexivity|]. f_equal. lia.
Qed.

Lemma there_and_back_fixed_only_if_witness :
  (any_clamp (there_and_back 2) (6, Some 30) = false /\ Some 30 = Some (6 + 24)) \/
  (any_clamp (there_and_back 2) (6, Some 30) = true /\
   6 = 1 /\ exists b, Some 30 = Some b /\ 1 <= b < 25).
Proof.
  apply (there_and_back_fixed_only_if 6 (Some 30) 2); [lia | lia | reflexivity].
Defined.

(** Both cases of the theorem occur, for every number of steps. *)
Lemma there_and_back_fixed_cases (l1 b : Z) (n : nat) :
  1 <= l1 ->
  (steps (there_and_back (S n)) (l1, Some (l1 + 24)) = (l1, Some (l1 + 24)) /\
   any_clamp (there_and_back (S n)) (l1, Some (l1 + 24)) = false) /\
  (1 <= b < 25 ->
   steps (there_and_back (S n)) (1, Some b) = (1, Some b) /\
   any_clamp (there_and_back (S n)) (1, Some b) = true).
Proof.
  intros Hl1. split.
  - destruct (there_and_back_run n l1 (l1 + 24) ltac:(lia)) as [Hrun Hcl].
    rewrite Hrun, Hcl. split; [f_equal; lia | apply Z.ltb_ge; lia].
  - intros Hb. destruct (there_and_back_run n 1 b ltac:(lia)) as [Hrun Hcl].
    rewrite Hrun, Hcl. split; [f_equal; lia | apply Z.ltb_lt; lia].
Qed.

(** C3, as the specification words it, fails: from [(1, 10)] one step
    forward gives [(11, 35)], one step back clamps [11 - 25] to 1 and gives
    [(1, 10)] again. *)
Lemma there_and_back_fixed_despite_clamp :
  (1 <= 1 /\ (1 <= 1)%nat /\
   steps (there_and_back 1) (1, Some 10) = (1, Some 10)) /\
  ~ any_clamp (there_and_back 1) (1, Some 10) = false.
Proof. split; [repeat split; lia | discriminate]. Qed.

End LinesViewFacts.

(** ** The decorator [github_cached] *)

Module GitHubFacts.
Import Py GitHub.

Lemma evict_containers_only (cache : gmap string pyval) (evicted : list string) :
  containers_only cache -> containers_only (foldr delete cache evicted).
Proof.
  intros Hc. induction evicted as [|k ks IH]; simpl; [exact Hc|].
  apply map_Forall_delete. exact IH.
Qed.

Lemma cache_set_containers_only (cache : gmap string pyval) (key : string)
    (value : pyval) (evicted : list string) :
  is_container value = true ->
  containers_only cache -> containers_only (cache_set cache key value evicted).
Proof.
  intros Hv Hc. unfold cache_set.
  apply map_Forall_insert_2; [exact Hv | apply evict_containers_only, Hc].
Qed.

(** What a call through the decorator does to the cache. *)
Lemma wrapper_cache (func : cached_fn) (args : list arg) (kwargs : list (string * arg))
    (evicted : list string) (cache cache' : gmap string pyval) (result : pyval) :
  wrapper func args kwargs evicted cache = inr (result, cache') ->
  cache' = cache \/
  (is_container result = true /\
   result = fn_call func args kwargs /\
   exists key, cache_key func args kwargs = inr key /\
               cache' = cache_set cache key result evicted).
Proof.
  unfold wrapper. destruct (cache_key func args kwargs) as [e|key]; [discriminate|].
  destruct (truthy (cache_get cache key)).
  - intros [= <- <-]. left. reflexivity.
  - destruct (is_container (fn_call func args kwargs)) eqn:Hc.
    + intros [= <- <-]. right. eauto.
    + intros [= <- <-]. left. reflexivity.
Qed.

Lemma wrapper_result_not_container (func : cached_fn) (args : list arg)
    (kwargs : list (string * arg)) (evicted : list string)
    (cache cache' : gmap string pyval) (result : pyval) :
  wrapper func args kwargs evicted cache = inr (result, cache') ->
  is_container result = false -> cache' = cache.
Proof.
  intros Hw Hr. destruct (wrapper_cache _ _ _ _ _ _ _ Hw) as [-> | (Hc & _)];
    [reflexivity | congruence].
Qed.

Lemma cache_step_containers_only (cache : gmap string pyval) (ev : cache_event) :
  containers_only cache -> containers_only (cache_step cache ev).
Proof.
  intros Hc. destruct ev as [func args kwargs evicted | key]; simpl.
  - destruct (wrapper func args kwargs evicted cache) as [e | [result cache']] eqn:Hw;
      [exact Hc|].
    destruct (wrapper_cache _ _ _ _ _ _ _ Hw) as [-> | (Hr & _ & key & _ & ->)];
      [exact Hc | apply cache_set_containers_only; assumption].
  - apply map_Forall_delete, Hc.
Qed.

Lemma cache_run_containers_only (evs : list cache_event) (cache : gmap string pyval) :
  containers_only cache -> containers_only (cache_run evs cache).
Proof.
  revert cache. induction evs as [|ev evs IH]; intros cache Hc; simpl; [exact Hc|].
  apply IH, cache_step_containers_only, Hc.
Qed.

(** C5. A call through [github_cached] that returns changes
    [github_object_cache] only by storing the value it returns, and only
    when that value is a dict or a list: when the value returned is [None]
    or anything else that is not a container, the cache afterwards is the
    cache before.  Hence, starting from the empty cache, every value found
    in it after any calls and expiries is a dict or a list. *)
Theorem github_cached_stores_only_containers :
  (forall func args kwargs evicted cache result cache',
     wrapper func args kwargs evicted cache = inr (result, cache') ->
     (is_container result = false -> cache' = cache) /\
     (cache' <> cache ->
      is_container result = true /\
      exists key, cache_key func args kwargs = inr key /\
                  cache' = cache_set cache key result evicted)) /\
  (forall func args kwargs evicted cache e,
     wrapper func args kwargs evicted cache = inl e ->
     cache_step cache (Call func args kwargs evicted) = cache) /\
  (forall evs key value,
     cache_run evs ∅ !! key = Some value -> is_container value = true).
Proof.
  split; [|split].
  - intros func args kwargs evicted cache result cache' Hw. split.
    + apply (wrapper_result_not_container _ _ _ _ _ _ _ Hw).
    + intros Hne.
      destruct (wrapper_cache _ _ _ _ _ _ _ Hw) as [-> | (Hr & _ & key & Hk & ->)];
        [contradiction | eauto].
  - intros func args kwargs evicted cache e Hw. simpl. rewrite Hw. reflexivity.
  - intros evs key value Hlook.
    apply (cache_run_containers_only evs ∅ (map_Forall_empty _) key value Hlook).
Qed.

Lemma github_cached_stores_only_containers_witness :
  let get_org := {| fn_id := 7; fn_call := fun _ _ => PyNone |} in
  let get_gist := {| fn_id := 9; fn_call := fun _ _ => PyDict [("id", PyStr "g1")] |} in
  (exists result, wrapper get_org [ArgObj "api"; ArgStr "nobody"] [] [] ∅ = inr (result, ∅)) /\
  is_container (PyDict [("id", PyStr "g1")]) = true.
Proof.
  intros get_org get_gist.
  destruct github_cached_stores_only_containers as (Hcall & _ & Hrun).
  split.
  - destruct (wrapper get_org [ArgObj "api"; ArgStr "nobody"] [] [] ∅)
      as [e | [result cache']] eqn:Hw; [discriminate Hw|].
    exists result. f_equal. f_equal.
    apply (proj1 (Hcall _ _ _ _ _ _ _ Hw)).
    vm_compute in Hw. injection Hw as <- _. reflexivity.
  - apply (Hrun [Call get_gist [ArgObj "api"; ArgStr "g1"] [] []] "9:g1"%string).
    vm_compute. reflexivity.
Defined.

(** C6, at the inputs where the code misses it. With two or more
    positional arguments the key is [id(func)], a colon, and the second
    positional argument, which is the first after [self]. With [self] as
    the only positional argument and the first argument given by keyword,
    building the key raises [IndexError]; with no positional argument at
    all the key carries the keyword's name, not its value. *)
Theorem cache_key_of_call (func : cached_fn) (self a : arg) (rest : list arg)
    (kwargs : list (string * arg)) (name : string) :
  cache_key func (self :: a :: rest) kwargs =
    inr (str_of_int (fn_id func) +:+ ":" +:+ format_arg a) /\
  cache_key func [self] ((name, a) :: kwargs) = inl IndexError /\
  (forall evicted cache,
     wrapper func [self] ((name, a) :: kwargs) evicted cache = inl IndexError) /\
  cache_key func [] ((name, a) :: kwargs) =
    inr (str_of_int (fn_id func) +:+ ":" +:+ name) /\
  cache_key func [] [] = inl StopIteration.
Proof. repeat split. Qed.

Example cache_key_keyword_call :
  let get_user_repos := {| fn_id := 7; fn_call := fun _ _ => PyList [] |} in
  cache_key get_user_repos [ArgObj "api"; ArgStr "octocat"] [] = inr "7:octocat"%string /\
  wrapper get_user_repos [ArgObj "api"] [("user"%string, ArgStr "octocat")] [] ∅
    = inl IndexError /\
  cache_key get_user_repos [] [("user"%string, ArgStr "octocat")] = inr "7:user"%string.
Proof. vm_compute. repeat split. Qed.

End GitHubFacts.

(** ** The size gate of the lines-of-code command *)

Module LocFacts.
Import Py GitHub Loc.

Lemma readexactly_enough (n : Z) (stream : list Byte.byte) :
  n <= Z.of_nat (length stream) ->
  readexactly n stream = inr (take (Z.to_nat n) stream).
Proof.
  intros Hn. unfold readexactly.
  destruct (Z.leb_spec n (Z.of_nat (length stream))); [reflexivity | lia].
Qed.

Lemma readexactly_short (n : Z) (stream : list Byte.byte) :
  Z.of_nat (length stream) < n -> readexactly n stream = inl stream.
Proof.
  intros Hn. unfold readexactly.
  destruct (Z.leb_spec n (Z.of_nat (length stream))); [lia | reflexivity].
Qed.

(** A successful response whose body reaches the threshold gives [False];
    a shorter one gives the whole body. *)
Lemma get_repo_zip_by_size (session_get : string -> http_response) (repo : string)
    (size_threshold : Z) :
  let res := session_get (BASE_URL +:+ "/repos/" +:+ repo +:+ "/zipball") in
  count_char "/" repo = 1%nat ->
  status res = 200 ->
  (size_threshold <= Z.of_nat (length (body res)) ->
   get_repo_zip session_get repo size_threshold = ZipFalse) /\
  (Z.of_nat (length (body res)) < size_threshold ->
   get_repo_zip session_get repo size_threshold = ZipBytes (body res)).
Proof.
  intros res Hslash Hstatus. unfold get_repo_zip. fold res.
  rewrite Hslash, Hstatus. cbn [Nat.eqb Nat.ltb Nat.leb orb Z.eqb Pos.eqb].
  split; intros Hsize.
  - rewrite readexactly_enough by exact Hsize. reflexivity.
  - rewrite readexactly_short by exact Hsize. reflexivity.
Qed.

Lemma process_repo_refused (w : world) (loc_cache : gmap string (pyval * Z))
    (repo : string) :
  let repo' := if nocache w then repo else lower repo in
  (if nocache w then None else loc_cache !! repo') = None ->
  zip_falsy (get_repo_zip (session_get w) repo' _25MB_BYTES) = true ->
  exists effects,
    process_repo w loc_cache repo = (None, loc_cache, effects) /\
    counted effects = false.
Proof.
  intros repo' Hmiss Hfalsy. unfold process_repo. fold repo'.
  rewrite Hmiss, Hfalsy. eexists. split; reflexivity.
Qed.

(** C7. When the response for the zipball is successful and its body is
    at least as long as the threshold, [get_repo_zip] returns [False], not
    bytes.  For the lines-of-code command the threshold is 25 MiB: when
    the repository exists and is not already in [loc_cache], the command
    then answers with the entry [loc.file_too_big], leaves the cache as it
    was and never runs the line counter. *)
Theorem oversized_zip_is_refused :
  (forall session_get repo size_threshold,
     count_char "/" repo = 1%nat ->
     status (session_get (BASE_URL +:+ "/repos/" +:+ repo +:+ "/zipball")) = 200 ->
     size_threshold
       <= Z.of_nat (length (body (session_get (BASE_URL +:+ "/repos/" +:+ repo +:+ "/zipball")))) ->
     get_repo_zip session_get repo size_threshold = ZipFalse) /\
  (forall w loc_cache repo,
     let repo' := if nocache w then repo else lower repo in
     let res := session_get w (BASE_URL +:+ "/repos/" +:+ repo' +:+ "/zipball") in
     truthy (get_repo w repo) = true ->
     (if nocache w then None else loc_cache !! repo') = None ->
     count_char "/" repo' = 1%nat ->
     status res = 200 ->
     _25MB_BYTES <= Z.of_nat (length (body res)) ->
     exists effects,
       lines_of_code_command w loc_cache repo
         = (Loc.Error "loc.file_too_big", loc_cache, effects) /\
       counted effects = false).
Proof.
  split.
  - intros session_get repo size_threshold Hslash Hstatus Hsize.
    apply (get_repo_zip_by_size session_get repo size_threshold Hslash Hstatus), Hsize.
  - intros w loc_cache repo repo' res Hr Hmiss Hslash Hstatus Hsize.
    pose proof (proj1 (get_repo_zip_by_size (session_get w) repo' _25MB_BYTES
                         Hslash Hstatus) Hsize) as Hzip.
    destruct (process_repo_refused w loc_cache repo Hmiss) as (effects & Hp & Hc).
    { fold repo'. rewrite Hzip. reflexivity. }
    exists effects. split; [|exact Hc].
    unfold lines_of_code_command. rewrite Hr, Hp. reflexivity.
Qed.

Lemma oversized_zip_is_refused_witness :
  let big := replicate (Z.to_nat _25MB_BYTES) Byte.x00 in
  let w := {| nocache := false;
              message_id := 42;
              get_repo := fun _ => PyDict [("url", PyStr "https://github.com/octo/big")];
              session_get := fun _ => {| status := 200; body := big |};
              c_removed := 0;
              cloc := Some (PyDict []) |} in
  get_repo_zip (fun _ => {| status := 200; body := [Byte.x50; Byte.x4b; Byte.x03] |})
    "octo/small" 3 = ZipFalse /\
  exists effects,
    lines_of_code_command w ∅ "Octo/Big" = (Loc.Error "loc.file_too_big", ∅, effects) /\
    counted effects = false.
Proof.
  intros big w.
  destruct oversized_zip_is_refused as [Hzip Hcmd].
  split.
  - apply Hzip; [reflexivity | reflexivity | simpl; lia].
  - refine (Hcmd w ∅ "Octo/Big"%string eq_refl eq_refl eq_refl eq_refl _).
    change (_25MB_BYTES <= Z.of_nat (length big)).
    unfold big. rewrite length_replicate, Z2Nat.id; unfold _25MB_BYTES; lia.
Defined.

End LocFacts.

(** ** The preference store *)

Module UserCollectionFacts.
Import Py UserCollection.

Lemma find_one_Some (c : collection) (_id : bson) (fields : gmap string bson) :
  c !! _id = Some fields -> find_one c _id = Some (<["_id" := _id]> fields).
Proof. intros H. unfold find_one. rewrite H. reflexivity. Qed.

Lemma find_one_None (c : collection) (_id : bson) :
  c !! _id = None -> find_one c _id = None.
Proof. intros H. unfold find_one. rewrite H. reflexivity. Qed.

Lemma matched_found (c : collection) (_id : bson) (fields : gmap string bson) :
  c !! _id = Some fields -> matched c (<["_id" := _id]> fields) = Some _id.
Proof.
  intros H. unfold matched. rewrite lookup_insert_eq.
  rewrite (find_one_Some c _id fields H). rewrite decide_True by reflexivity.
  reflexivity.
Qed.

Lemma alter_found (c : collection) (_id : bson) (fields : gmap string bson)
    (f : gmap string bson -> gmap string bson) :
  c !! _id = Some fields -> alter f _id c = <[_id := f fields]> c.
Proof.
  intros H. apply map_eq. intros k.
  destruct (decide (_id = k)) as [<- | Hne].
  - rewrite lookup_alter_eq, lookup_insert_eq, H. reflexivity.
  - rewrite lookup_alter_ne, lookup_insert_ne by exact Hne. reflexivity.
Qed.

Lemma size_insert_one (m : gmap string bson) (k : string) (v : bson) :
  size (<[k := v]> m) = 1%nat <-> (forall j, j <> k -> m !! j = None).
Proof.
  rewrite <- (insert_delete_eq m k v).
  rewrite map_size_insert_None by apply lookup_delete_eq.
  split.
  - intros Hs j Hj.
    assert (Hempty : delete k m = ∅) by (apply map_size_empty_iff; lia).
    rewrite <- (lookup_delete_ne m k j) by congruence.
    rewrite Hempty. apply lookup_empty.
  - intros Hnone. f_equal. apply map_size_empty_iff, map_empty. intros j.
    destruct (decide (k = j)) as [<- | Hne].
    + apply lookup_delete_eq.
    + rewrite lookup_delete_ne by exact Hne. apply Hnone. congruence.
Qed.

(** What [delitem] computes for a field other than [_id]. *)
Lemma delitem_eval (c : collection) (_id : Z) (field : string) :
  field <> "_id"%string ->
  delitem c _id field =
    match c !! (inl _id : bson) with
    | Some fields =>
        if decide (is_Some (fields !! field)) then
          if decide (size (<["_id" := inl _id]> (delete field fields)) = 1%nat)
          then inr (true, delete (inl _id : bson) c)
          else inr (true, <[(inl _id : bson) := delete field fields]> c)
        else inr (false, c)
    | None => inr (false, c)
    end.
Proof.
  intros Hf. unfold delitem.
  destruct (c !! (inl _id : bson)) as [fields|] eqn:Hc.
  - rewrite (find_one_Some c _ fields Hc).
    rewrite lookup_insert_ne by congruence.
    destruct (decide (is_Some (fields !! field))) as [Hin | Hout]; [|reflexivity].
    unfold update_one_unset. rewrite (matched_found c _ fields Hc).
    rewrite decide_False by exact Hf.
    rewrite (alter_found c _ fields _ Hc).
    rewrite delete_insert_ne by congruence.
    unfold find_one_and_delete. rewrite delete_insert_eq.
    repeat case_decide; try contradiction; reflexivity.
  - rewrite (find_one_None c _ Hc). reflexivity.
Qed.

(** C10. For a field other than the key [_id]: [delitem] returns [True]
    exactly when a record with the id exists and holds the field.  Then
    the field is unset in that record, and when no other field besides
    [_id] is left the whole record is removed.  Otherwise it returns
    [False] and the store is as before. *)
Theorem delitem_removes_field (c : collection) (_id : Z) (field : string) :
  field <> "_id"%string ->
  exists done c',
    delitem c _id field = inr (done, c') /\
    (done = true <->
     exists fields, c !! (inl _id : bson) = Some fields /\ is_Some (fields !! field)) /\
    (done = false -> c' = c) /\
    (forall fields, done = true -> c !! (inl _id : bson) = Some fields ->
       ((forall other, other <> "_id"%string -> other <> field -> fields !! other = None) ->
        c' = delete (inl _id : bson) c) /\
       ((exists other, other <> "_id"%string /\ other <> field /\ is_Some (fields !! other)) ->
        c' = <[(inl _id : bson) := delete field fields]> c /\
        c' !! (inl _id : bson) = Some (delete field fields) /\
        delete field fields !! field = None)).
Proof.
  intros Hf. rewrite (delitem_eval c _id field Hf).
  destruct (c !! (inl _id : bson)) as [fields|] eqn:Hc.
  - destruct (decide (is_Some (fields !! field))) as [Hin | Hout].
    + destruct (decide (size (<["_id" := inl _id]> (delete field fields)) = 1%nat))
        as [Hlast | Hmore].
      * eexists _, _. split; [reflexivity|]. split; [|split].
        -- split; [eauto | reflexivity].
        -- discriminate.
        -- intros fields' _ [= <-]. split; [reflexivity|].
           intros (other & Ho1 & Ho2 & [v Hv]).
           pose proof (proj1 (size_insert_one _ _ _) Hlast other Ho1) as Hnone.
           rewrite lookup_delete_ne in Hnone by congruence. congruence.
      * eexists _, _. split; [reflexivity|]. split; [|split].
        -- split; [eauto | reflexivity].
        -- discriminate.
        -- intros fields' _ [= <-]. split.
           ++ intros Hnone. exfalso. apply Hmore.
              apply (proj2 (size_insert_one _ _ _)).
              intros j Hj. destruct (decide (field = j)) as [<- | Hne].
              ** apply lookup_delete_eq.
              ** rewrite lookup_delete_ne by exact Hne. apply Hnone; congruence.
           ++ intros _. split; [reflexivity|].
              split; [apply lookup_insert_eq | apply lookup_delete_eq].
    + eexists _, _. split; [reflexivity|]. split; [|split].
      * split; [discriminate|]. intros (fields' & [= <-] & Hin). contradiction.
      * reflexivity.
      * discriminate.
  - eexists _, _. split; [reflexivity|]. split; [|split].
    + split; [discriminate|]. intros (fields' & Hsome & _). discriminate.
    + reflexivity.
    + discriminate.
Qed.

Lemma delitem_removes_field_witness :
  let c : collection :=
    {[ (inl 1 : bson) := {[ "user"%string := (inr "octocat"%string : bson) ]};
       (inl 2 : bson) := {[ "user"%string := (inr "hubot"%string : bson);
                            "locale"%string := (inr "en"%string : bson) ]} ]} in
  exists done c', delitem c 1 "user" = inr (done, c') /\
    (done = true <->
     exists fields, c !! (inl 1 : bson) = Some fields /\ is_Some (fields !! "user"%string)).
Proof.
  intros c.
  destruct (delitem_removes_field c 1 "user"%string ltac:(discriminate))
    as (done & c' & Hd & Hiff & _).
  exists done, c'. split; [exact Hd | exact Hiff].
Defined.

(** What [setitem] validates, field by field. *)
Lemma valid_cases (env : validators) (item value : string) :
  (item = "user"%string -> valid env item value = is_not_none (get_user env value)) /\
  (item = "repo"%string -> valid env item value = is_not_none (get_repo env value)) /\
  (item = "org"%string -> valid env item value = is_not_none (get_org env value)) /\
  (item = "locale"%string -> (valid env item value = true <-> In value (languages env))) /\
  (item <> "user"%string -> item <> "repo"%string -> item <> "org"%string ->
   item <> "locale"%string -> valid env item value = true).
Proof.
  unfold valid. repeat split.
  - intros ->. reflexivity.
  - intros ->. reflexivity.
  - intros ->. reflexivity.
  - subst item. cbn. rewrite existsb_exists.
    intros (name & Hin & Heq). apply String.eqb_eq in Heq. subst. exact Hin.
  - subst item. cbn. intros Hin. apply existsb_exists.
    exists value. split; [exact Hin | apply String.eqb_refl].
  - intros Hu Hr Ho Hl.
    apply String.eqb_neq in Hu, Hr, Ho, Hl. rewrite Hu, Hr, Ho, Hl. reflexivity.
Qed.

(** C8. For a field other than the key [_id], [setitem] returns [True]
    exactly when the check passes: for [user], [repo] and [org] the
    lookup of the value through the GitHub API is not [None]; for
    [locale] the value is the name of a configured language; any other
    field passes.  When it passes the value is written, into the record of
    the id or into a new one; when it fails the answer is [False] and the
    store is as before. *)
Theorem setitem_validates (env : validators) (c : collection) (_id : Z)
    (item value : string) :
  item <> "_id"%string ->
  exists accepted c',
    setitem env c _id item value = inr (accepted, c') /\
    accepted = valid env item value /\
    (item = "user"%string -> (accepted = true <-> get_user env value <> PyNone)) /\
    (item = "repo"%string -> (accepted = true <-> get_repo env value <> PyNone)) /\
    (item = "org"%string -> (accepted = true <-> get_org env value <> PyNone)) /\
    (item = "locale"%string -> (accepted = true <-> In value (languages env))) /\
    (item <> "user"%string -> item <> "repo"%string -> item <> "org"%string ->
     item <> "locale"%string -> accepted = true) /\
    (accepted = false -> c' = c) /\
    (accepted = true ->
     c' = <[(inl _id : bson) :=
              <[item := (inr value : bson)]> (default ∅ (c !! (inl _id : bson)))]> c).
Proof.
  intros Hitem.
  assert (Hnn : forall v, is_not_none v = true <-> v <> PyNone).
  { intros v. destruct v; simpl; split; congruence. }
  destruct (valid_cases env item value) as (Hu & Hr & Ho & Hl & Hother).
  assert (Hset : exists c', setitem env c _id item value = inr (valid env item value, c') /\
            (valid env item value = false -> c' = c) /\
            (valid env item value = true ->
             c' = <[(inl _id : bson) :=
                      <[item := (inr value : bson)]> (default ∅ (c !! (inl _id : bson)))]> c)).
  { unfold setitem. destruct (valid env item value) eqn:Hv.
    - destruct (c !! (inl _id : bson)) as [fields|] eqn:Hc.
      + rewrite (find_one_Some c _ fields Hc). unfold update_one_set.
        rewrite (matched_found c _ fields Hc), decide_False by exact Hitem.
        rewrite (alter_found c _ fields _ Hc).
        eexists. split; [reflexivity|]. split; [discriminate | reflexivity].
      + rewrite (find_one_None c _ Hc). unfold insert_one.
        rewrite lookup_insert_ne by congruence.
        rewrite lookup_singleton_eq, Hc.
        eexists. split; [reflexivity|]. split; [discriminate|]. intros _.
        f_equal. simpl. rewrite delete_insert_ne by congruence.
        rewrite delete_singleton_eq. reflexivity.
    - eexists. split; [reflexivity|]. split; [reflexivity | discriminate]. }
  destruct Hset as (c' & Hs & Hfail & Hok).
  exists (valid env item value), c'.
  split; [exact Hs|]. split; [reflexivity|].
  split; [intros Hi; rewrite (Hu Hi); apply Hnn|].
  split; [intros Hi; rewrite (Hr Hi); apply Hnn|].
  split; [intros Hi; rewrite (Ho Hi); apply Hnn|].
  split; [exact Hl|].
  split; [exact Hother|].
  split; [exact Hfail | exact Hok].
Qed.

Lemma setitem_validates_witness :
  let env := {| get_user := fun name => if String.eqb name "octocat"
                                        then PyDict [("login", PyStr "octocat")] else PyNone;
                get_repo := fun _ => PyNone;
                get_org := fun _ => PyNone;
                languages := ["en"%string; "fr"%string] |} in
  exists accepted c',
    setitem env ∅ 5 "user" "nobody" = inr (accepted, c') /\
    accepted = valid env "user" "nobody".
Proof.
  intros env.
  destruct (setitem_validates env ∅ 5 "user"%string "nobody"%string ltac:(discriminate))
    as (accepted & c' & Hs & Hv & _).
  exists accepted, c'. split; [exact Hs | exact Hv].
Defined.

End UserCollectionFacts.

(** ** Truncated lists *)

Module CommandsFacts.
Import Py Commands.

Lemma take_short {A : Type} (n : nat) (l : list A) :
  (length l <= n)%nat -> take n l = l /\ length (take n l) = length l.
Proof. intros H. rewrite take_ge by exact H. split; reflexivity. Qed.

Lemma take_long {A : Type} (n : nat) (l : list A) :
  (n < length l)%nat -> length (take n l) = n.
Proof. intros H. rewrite length_take. lia. Qed.

Lemma user_repos_command_sends (ctx : context) (user : string) (u : user_data)
    (repos : list repo_data) :
  user <> ""%string -> repos <> [] ->
  exists e,
    user_repos_command ctx user (Some u) (Some repos) = inr (Send e) /\
    description e = String.concat newline (map repo_line (take 15 repos)) /\
    footer e =
      if 15 <? Z.of_nat (length repos)
      then Some (fmt ctx "user repos" "more" [str_of_int (Z.of_nat (length repos) - 15)])
      else None.
Proof.
  intros Huser Hrepos. unfold user_repos_command.
  destruct repos as [|x repos]; [contradiction|].
  destruct user as [|c user]; [contradiction|].
  eexists. split; [reflexivity|]. split; reflexivity.
Qed.

(** C9. In the [user repos] command, for a user that exists with [N]
    public repositories ([N >= 1]; with none the command answers with an
    error): the description renders the first 15 of them, which is all of
    them when [N <= 15], and the footer is set, to the [more] entry
    formatted with [N - 15], exactly when [N > 15].  In the crates info
    command the authors line links the first 5 owners, all of them when
    there are at most 5, and is followed by the [more_authors] entry
    formatted with [N - 5] exactly when there are more than 5. *)
Theorem long_lists_are_truncated (ctx : context) :
  (forall user u repos,
     user <> ""%string -> repos <> [] ->
     exists e,
       user_repos_command ctx user (Some u) (Some repos) = inr (Send e) /\
       description e = String.concat newline (map repo_line (take 15 repos)) /\
       ((15 < length repos)%nat ->
        length (take 15 repos) = 15%nat /\
        footer e =
          Some (fmt ctx "user repos" "more"
                  [str_of_int (Z.of_nat (length repos) - 15)])) /\
       ((length repos <= 15)%nat ->
        take 15 repos = repos /\ footer e = None)) /\
  (forall crate_url owners,
     authors ctx crate_url owners =
       fmt ctx "crates info" "authors"
         [String.concat ", " (map owner_link (take 5 owners))]
       +:+ more_authors ctx crate_url owners +:+ newline /\
     ((5 < length owners)%nat ->
      length (take 5 owners) = 5%nat /\
      more_authors ctx crate_url owners =
        " " +:+ fmt ctx "crates info" "more_authors"
                  ["[" +:+ str_of_int (Z.of_nat (length owners) - 5)
                   +:+ "](" +:+ crate_url +:+ ")"]) /\
     ((length owners <= 5)%nat ->
      take 5 owners = owners /\ more_authors ctx crate_url owners = ""%string)).
Proof.
  split.
  - intros user u repos Huser Hrepos.
    destruct (user_repos_command_sends ctx user u repos Huser Hrepos)
      as (e & Hsend & Hdesc & Hfoot).
    exists e. split; [exact Hsend|]. split; [exact Hdesc|]. split.
    + intros Hlong. split; [apply take_long, Hlong|].
      rewrite Hfoot. destruct (Z.ltb_spec 15 (Z.of_nat (length repos))); [reflexivity | lia].
    + intros Hshort. split; [apply take_short, Hshort|].
      rewrite Hfoot. destruct (Z.ltb_spec 15 (Z.of_nat (length repos))); [lia | reflexivity].
  - intros crate_url owners. split; [reflexivity|]. split.
    + intros Hlong. split; [apply take_long, Hlong|].
      unfold more_authors.
      destruct (Z.ltb_spec 5 (Z.of_nat (length owners))); [reflexivity | lia].
    + intros Hshort. split; [apply take_short, Hshort|].
      unfold more_authors.
      destruct (Z.ltb_spec 5 (Z.of_nat (length owners))); [lia | reflexivity].
Qed.

Lemma long_lists_are_truncated_witness :
  let ctx := {| fmt := fun prefix entry args => prefix +:+ "/" +:+ entry +:+ ":" +:+ String.concat "," args;
                rounded := 3092790 |} in
  let repos := map (fun n => {| name := "r" +:+ str_of_int n;
                             html_url := "https://github.com/octocat/r" +:+ str_of_int n |})
                   (seqZ 1 17) in
  exists e,
    user_repos_command ctx "octocat" (Some {| avatarUrl := "https://a/1.png" |}) (Some repos)
      = inr (Send e) /\
    footer e = Some "user repos/more:2"%string.
Proof.
  intros ctx repos.
  destruct (long_lists_are_truncated ctx) as [Hrepos _].
  destruct (Hrepos "octocat"%string {| avatarUrl := "https://a/1.png" |} repos
              ltac:(discriminate) ltac:(discriminate))
    as (e & Hsend & _ & Hlong & _).
  exists e. split; [exact Hsend|].
  apply Hlong. vm_compute. lia.
Defined.

Example user_repos_command_no_repos (ctx : context) (user : string) (u : user_data) :
  user_repos_command ctx user (Some u) (Some []) = inr (Error "user.repos.no_public") /\
  user_repos_command ctx user (Some u) None = inr (Error "user.repos.no_public") /\
  user_repos_command ctx user None (Some []) = inr (Error "generic.nonexistent.user.base").
Proof. repeat split. Qed.

End CommandsFacts.

(** ** Strings *)

Module PyFacts.
Import Py.

(** Push [+:+] through the constructors of its left argument. *)
Ltac string_app :=
  repeat match goal with
  | |- context [(String ?a ?s +:+ ?t)%string] =>
      change (String a s +:+ t)%string with (String a (s +:+ t))
  | |- context [(EmptyString +:+ ?t)%string] =>
      change (EmptyString +:+ t)%string with t
  end.

Lemma app_empty_r (s : string) : (s +:+ "")%string = s.
Proof. induction s as [|a s IH]; string_app; [reflexivity | f_equal; exact IH]. Qed.

Lemma count_char_app (c : ascii) (s t : string) :
  count_char c (s +:+ t) = (count_char c s + count_char c t)%nat.
Proof.
  induction s as [|d s IH]; string_app; cbn [count_char]; [reflexivity | rewrite IH; lia].
Qed.

Lemma pretty_N_go_count (c : ascii) (x : N) (s : string) :
  (forall n, pretty_N_char n <> c) ->
  count_char c (pretty_N_go x s) = count_char c s.
Proof.
  intros Hc. revert s. induction (N.lt_wf_0 x) as [x _ IH]; intros s.
  destruct (decide (x = 0)%N) as [-> | Hx]; [rewrite pretty_N_go_0; reflexivity|].
  rewrite pretty_N_go_step by lia.
  rewrite IH by (apply N.div_lt; lia). cbn.
  destruct (Ascii.eqb_spec c (pretty_N_char (x `mod` 10))) as [-> | _]; [|reflexivity].
  exfalso. exact (Hc _ eq_refl).
Qed.

(** [str(n)] is made of digits and, for a negative [n], a leading dash:
    it holds no other character. *)
Lemma str_of_int_count (c : ascii) (n : Z) :
  (forall d, pretty_N_char d <> c) -> c <> "-"%char ->
  count_char c (str_of_int n) = 0%nat.
Proof.
  intros Hc Hdash.
  assert (HN : forall x : N, count_char c (pretty x) = 0%nat).
  { intros x. unfold pretty, pretty_N. case_decide.
    - cbn. destruct (Ascii.eqb_spec c "0") as [-> | _]; [|reflexivity].
      exfalso. exact (Hc 0%N eq_refl).
    - rewrite pretty_N_go_count by exact Hc. reflexivity. }
  unfold str_of_int, pretty, pretty_Z. destruct n as [|p|p].
  - cbn. destruct (Ascii.eqb_spec c "0") as [-> | _]; [|reflexivity].
    exfalso. exact (Hc 0%N eq_refl).
  - apply HN.
  - string_app. cbn [count_char].
    destruct (Ascii.eqb_spec c "-") as [-> | _]; [contradiction|]. apply HN.
Qed.

Lemma not_a_digit (c : ascii) :
  (nat_of_ascii c < 48 \/ 57 < nat_of_ascii c)%nat -> forall d, pretty_N_char d <> c.
Proof.
  intros Hc d <-. unfold pretty_N_char in Hc.
  repeat case_match;
    match type of Hc with
    | context [nat_of_ascii ?a] =>
        let n := eval vm_compute in (nat_of_ascii a) in
        change (nat_of_ascii a) with n in Hc
    end; lia.
Qed.

Lemma prefix_app (s t : string) : String.prefix s (s +:+ t) = true.
Proof.
  induction s as [|c s IH]; string_app; cbn [String.prefix]; [destruct t; reflexivity|].
  destruct (ascii_dec c c); [exact IH | contradiction].
Qed.

Lemma prefix_count (c : ascii) (old s : string) :
  String.prefix old s = true -> (count_char c old <= count_char c s)%nat.
Proof.
  revert s. induction old as [|a old IH]; intros s H; [cbn; lia|].
  destruct s as [|b s]; cbn [String.prefix] in H; [discriminate|].
  destruct (ascii_dec a b) as [<- | _]; [|discriminate].
  specialize (IH s H). cbn [count_char]. lia.
Qed.

Lemma replace_go_skip (old new : string) (k : nat) (s : string) :
  (String.length s <= k)%nat -> replace_go old new k s = ""%string.
Proof.
  revert k. induction s as [|c s IH]; intros k Hk; [reflexivity|].
  cbn in *. destruct k as [|k]; [lia|]. apply IH. lia.
Qed.

(** A pattern holding a character the text lacks occurs nowhere in it:
    [replace] gives the text back. *)
Lemma replace_absent (c : ascii) (s old new : string) :
  count_char c s = 0%nat -> count_char c old <> 0%nat -> replace s old new = s.
Proof.
  intros Hs Hold. unfold replace.
  destruct old as [|a old]; [contradiction|].
  induction s as [|b s IH]; [reflexivity|].
  cbn [replace_go].
  destruct (String.prefix (String a old) (String b s)) eqn:Hp.
  - apply (prefix_count c) in Hp. lia.
  - f_equal. apply IH. cbn in Hs.
    destruct (Ascii.eqb c b); [discriminate | exact Hs].
Qed.

(** A pattern that starts with a character the text before it lacks is
    replaced where it stands at the end. *)
Lemma replace_at_end (c : ascii) (base old new : string) :
  count_char c base = 0%nat ->
  replace (base +:+ String c old) (String c old) new = base +:+ new.
Proof.
  intros Hbase. unfold replace.
  induction base as [|b base IH].
  - string_app. cbn [replace_go].
    replace (String.prefix (String c old) (String c old)) with true.
    + rewrite replace_go_skip by (cbn; lia). apply app_empty_r.
    + symmetry. pose proof (prefix_app (String c old) "") as Hp.
      rewrite app_empty_r in Hp. exact Hp.
  - cbn in Hbase. destruct (Ascii.eqb_spec c b) as [-> | Hne]; [discriminate|].
    string_app. cbn [replace_go String.prefix].
    destruct (ascii_dec c b) as [-> | _]; [contradiction|].
    f_equal. apply IH. exact Hbase.
Qed.

End PyFacts.

(** ** More on the line-range view *)

Module LinesViewPaging.
Import Py LinesView LinesViewLog PyFacts.

(** A press acts on [(l1, l2)] as [step] does, whatever the fetch
    returns. *)
Lemma button_callback_window (d : bool) (fetched : option string) (st : ui) :
  (l1 (the_view (button_callback d fetched st)),
   l2 (the_view (button_callback d fetched st)))
  = step d (l1 (the_view st), l2 (the_view st)).
Proof.
  unfold button_callback, step. cbn [fst snd].
  destruct (get_next_lines _ _ d) as [n1 n2].
  destruct (truthy_text fetched); reflexivity.
Qed.

Lemma presses_window (d : bool) (fetched : list (option string)) (st : ui) :
  (l1 (the_view (session (map (Step d) fetched) st)),
   l2 (the_view (session (map (Step d) fetched) st)))
  = steps (replicate (length fetched) d) (l1 (the_view st), l2 (the_view st)).
Proof.
  revert st. induction fetched as [|f fs IH]; intros st; [reflexivity|].
  cbn [map length replicate steps]. unfold session in *. cbn [fold_left handle].
  rewrite IH, button_callback_window. reflexivity.
Qed.

(** X1. Through any presses of the three buttons the first line shown
    stays at 1 or above, and the second line is either still the one the
    URL named or an integer at 1 or above. *)
Theorem session_window_floor (lines_url : string) (parsed : re_match)
    (text : option string) (ps : list press) :
  1 <= l1 (the_view (session ps (opened lines_url parsed text))) /\
  (l2 (the_view (session ps (opened lines_url parsed text))) = second_line_number parsed \/
   exists c, l2 (the_view (session ps (opened lines_url parsed text))) = Some c /\ 1 <= c).
Proof.
  induction ps as [|p ps IH] using rev_ind.
  - cbn. split; [lia | left; reflexivity].
  - rewrite LinesViewFacts.session_snoc.
    set (st := session ps (opened lines_url parsed text)) in *.
    destruct p as [d fetched | fetched]; cbn [handle].
    + pose proof (button_callback_window d fetched st) as Hw.
      destruct (LinesViewFacts.step_floor d (l1 (the_view st), l2 (the_view st)))
        as (a & c & Hs & Ha & Hc).
      rewrite Hs in Hw. injection Hw as -> ->. split; [exact Ha | right; eauto].
    + pose proof (LinesViewFacts.session_originals ps (opened lines_url parsed text)) as Ho.
      fold st in Ho. unfold originals in Ho. cbn in Ho. injection Ho as H1 H2 _ _.
      cbn. rewrite H1, H2. split; [lia | left; reflexivity].
Qed.

(** X2. From a view whose second line [b >= 0] is set, [n >= 1] presses
    forward show the lines [b + 25 (n - 1) + 1] to [b + 25 n]: the pages
    follow one another with no gap and no overlap, 25 lines each,
    whatever the fetches return. *)
Theorem forward_presses_tile (st : ui) (b : Z) (fetched : list (option string)) :
  l2 (the_view st) = Some b -> 0 <= b -> fetched <> [] ->
  let st' := session (map (Step true) fetched) st in
  l1 (the_view st') = b + 25 * (Z.of_nat (length fetched) - 1) + 1 /\
  l2 (the_view st') = Some (b + 25 * Z.of_nat (length fetched)).
Proof.
  intros Hl2 Hb Hne st'.
  pose proof (presses_window true fetched st) as Hw. fold st' in Hw.
  destruct fetched as [|f fs]; [contradiction|].
  rewrite Hl2 in Hw. cbn [length] in *.
  destruct (LinesViewFacts.forward_run (length fs) (l1 (the_view st)) b Hb) as [Hrun _].
  rewrite Hrun in Hw. injection Hw as -> ->.
  split; [|f_equal]; lia.
Qed.

Lemma forward_presses_tile_witness :
  let st := opened "https://github.com/o/r/blob/main/a.py#L1-L10"
              {| groups := [GStr "github"; GStr "o/r"; GStr "main"; GStr "a.py";
                            GStr "1"; GStr "10"];
                 platform_group := "github";
                 first_line_number := 1;
                 second_line_number := Some 10 |} (Some "ten lines") in
  let st' := session (map (Step true) [Some "a"; None; Some "c"]) st in
  l1 (the_view st') = 61 /\ l2 (the_view st') = Some 85.
Proof.
  intros st st'.
  exact (forward_presses_tile st 10 [Some "a"; None; Some "c"] eq_refl ltac:(lia) ltac:(discriminate)).
Defined.

(** X3. Going back far enough always ends on line 1 alone: after [n >= 1]
    presses backward from a first line [l1 <= 25 (n - 1) + 2] the window
    is [(1, 1)], and it stays there under further presses backward. *)
Theorem backward_presses_bottom (n : nat) (l1 : Z) (l2 : option Z) :
  (1 <= n)%nat -> l1 <= 25 * (Z.of_nat n - 1) + 2 ->
  steps (replicate n false) (l1, l2) = (1, Some 1) /\
  step false (1, Some 1) = (1, Some 1).
Proof.
  intros Hn Hl1. split; [|reflexivity].
  destruct n as [|n]; [lia|]. clear Hn.
  revert l1 l2 Hl1. induction n as [|n IH]; intros l1 l2 Hl1.
  - cbn [replicate steps step get_next_lines fst snd]. f_equal; [|f_equal]; lia.
  - change (replicate (S (S n)) false) with (false :: replicate (S n) false).
    cbn [steps]. unfold step. cbn [get_next_lines fst snd].
    apply IH. lia.
Qed.

Lemma backward_presses_bottom_witness :
  steps (replicate 3 false) (52, Some 60) = (1, Some 1) /\
  step false (1, Some 1) = (1, Some 1).
Proof. apply (backward_presses_bottom 3 52 (Some 60)); lia. Defined.

(** X4. After a press forward or backward that fetched text, and after
    a revert, the two labels announce exactly the windows the next press
    sets: the forward label reads the window a press forward leads to, the
    backward label the window a press backward leads to, and it reads
    "line 1" exactly when that window is line 1 alone. *)
Theorem labels_announce_next_window (st : ui) :
  (forall d new fetched d',
     new <> ""%string ->
     let st' := button_callback d (Some new) st in
     let w := step d' (l1 (the_view st'), l2 (the_view st')) in
     (l1 (the_view (button_callback d' fetched st')),
      l2 (the_view (button_callback d' fetched st'))) = w /\
     (d' = true -> exists a b, w = (a, Some b) /\ forward_label (the_view st') = ViewFromTo a b) /\
     (d' = false -> exists a b, w = (a, Some b) /\
        ((a <> b /\ back_label (the_view st') = ViewFromTo a b) \/
         (a = 1 /\ b = 1 /\ back_label (the_view st') = View 1)))) /\
  (forall fetched fetched' d',
     let st' := revert_callback fetched st in
     let w := step d' (l1 (the_view st'), l2 (the_view st')) in
     (l1 (the_view (button_callback d' fetched' st')),
      l2 (the_view (button_callback d' fetched' st'))) = w /\
     (d' = true -> exists a b, w = (a, Some b) /\ forward_label (the_view st') = ViewFromTo a b) /\
     (d' = false -> exists a b, w = (a, Some b) /\
        ((a <> b /\ back_label (the_view st') = ViewFromTo a b) \/
         (a = 1 /\ b = 1 /\ back_label (the_view st') = View 1)))).
Proof.
  assert (Hback : forall x, let r := get_next_lines x None false in
            (fst r <> snd r /\ (fst r =? snd r) = false) \/
            (fst r = 1 /\ snd r = 1 /\ (fst r =? snd r) = true)).
  { intros x. cbn [get_next_lines fst snd].
    destruct (Z.eqb_spec (Z.max (x - 25) 1) (Z.max (x - 1) 1)) as [He | Hne].
    - right. lia.
    - left. split; [exact Hne | reflexivity]. }
  assert (Hany : forall x y, get_next_lines x y false = get_next_lines x None false)
    by reflexivity.
  split.
  - intros d new fetched d' Hnew st' w.
    split; [apply button_callback_window|].
    subst w st'. unfold button_callback.
    destruct (get_next_lines (l1 (the_view st)) (l2 (the_view st)) d) as [n1 n2].
    replace (truthy_text (Some new)) with true
      by (symmetry; cbn; destruct new; [contradiction | reflexivity]).
    cbn [the_view set_labels l1 l2 forward_label back_label fst snd]. unfold step.
    cbn [fst snd]. split.
    + intros ->. destruct (get_next_lines n1 (Some n2) true) as [a b]. eauto.
    + intros ->. rewrite Hany. specialize (Hback n1).
      destruct (get_next_lines n1 None false) as [a b]. cbn [fst snd] in *.
      exists a, b. split; [reflexivity|].
      destruct Hback as [(Hne & ->) | (-> & -> & _)]; [left | right]; auto.
  - intros fetched fetched' d' st' w.
    split; [apply button_callback_window|].
    subst w st'. unfold revert_callback.
    cbn [the_view set_labels l1 l2 forward_label back_label fst snd]. unfold step.
    cbn [fst snd]. split.
    + intros ->.
      destruct (get_next_lines (__original_l1__ (the_view st))
                  (__original_l2__ (the_view st)) true) as [a b]. eauto.
    + intros ->. rewrite Hany. specialize (Hback (__original_l1__ (the_view st))).
      destruct (get_next_lines (__original_l1__ (the_view st)) None false) as [a b].
      cbn [fst snd] in *.
      exists a, b. split; [reflexivity|].
      destruct Hback as [(Hne & ->) | (-> & -> & _)]; [left | right]; auto.
Qed.

Lemma labels_announce_next_window_witness :
  let st := opened "https://github.com/o/r/blob/main/a.py#L30-L40"
              {| groups := [GStr "github"; GStr "o/r"; GStr "main"; GStr "a.py";
                            GStr "30"; GStr "40"];
                 platform_group := "github";
                 first_line_number := 30;
                 second_line_number := Some 40 |} (Some "lines") in
  let st' := button_callback false (Some "earlier lines") st in
  (l1 (the_view st'), l2 (the_view st')) = (5, Some 29) /\
  exists a b, step false (l1 (the_view st'), l2 (the_view st')) = (a, Some b) /\
    ((a <> b /\ back_label (the_view st') = ViewFromTo a b) \/
     (a = 1 /\ b = 1 /\ back_label (the_view st') = View 1)).
Proof.
  intros st st'. split; [reflexivity|].
  destruct (labels_announce_next_window st) as [Hstep _].
  destruct (Hstep false "earlier lines"%string None false ltac:(discriminate))
    as (_ & _ & Hb).
  exact (Hb eq_refl).
Defined.

(** X5. A view built from a URL that names one line announces too much
    on its forward label: the label reads [l1 + 1] to [l1 + 25], the
    first press forward shows [l1] to [l1 + 25].  After a revert the label
    is exact: [l1] to [l1 + 25].  When the URL names a second line
    [b >= 1], the first label is exact too. *)
Theorem first_forward_label (lines_url : string) (parsed : re_match)
    (text fetched fetched' : option string) :
  1 <= first_line_number parsed ->
  let f := first_line_number parsed in
  let st := opened lines_url parsed text in
  (second_line_number parsed = None ->
     forward_label (the_view st) = ViewFromTo (f + 1) (f + 25) /\
     (l1 (the_view (button_callback true fetched st)),
      l2 (the_view (button_callback true fetched st))) = (f, Some (f + 25)) /\
     forward_label (the_view (revert_callback fetched' (button_callback true fetched st)))
       = ViewFromTo f (f + 25)) /\
  (forall b, second_line_number parsed = Some b -> 1 <= b ->
     forward_label (the_view st) = ViewFromTo (b + 1) (b + 25) /\
     (l1 (the_view (button_callback true fetched st)),
      l2 (the_view (button_callback true fetched st))) = (b + 1, Some (b + 25))).
Proof.
  intros Hf f st. subst st. split.
  - intros Hnone. split; [|split].
    + cbn. rewrite Hnone. cbn. f_equal; lia.
    + rewrite button_callback_window. cbn. rewrite Hnone.
      unfold step. cbn. f_equal; [|f_equal]; lia.
    + pose proof (LinesViewFacts.handle_originals (Step true fetched)
                    (opened lines_url parsed text)) as Ho.
      unfold originals in Ho. cbn [handle] in Ho. injection Ho as H1 H2 _ _.
      cbn [revert_callback the_view set_labels forward_label].
      rewrite H1, H2. cbn. rewrite Hnone. cbn. f_equal; lia.
  - intros b Hsome Hb. split.
    + cbn. rewrite Hsome. cbn.
      destruct (Z.eqb_spec b 0); [lia|]. f_equal; lia.
    + rewrite button_callback_window. cbn. rewrite Hsome.
      unfold step. cbn. f_equal; [|f_equal]; lia.
Qed.

Lemma first_forward_label_witness :
  let parsed := {| groups := [GStr "github"; GStr "o/r"; GStr "main"; GStr "a.py";
                              GStr "40"; GNone];
                   platform_group := "github";
                   first_line_number := 40;
                   second_line_number := None |} in
  let st := opened "https://github.com/o/r/blob/main/a.py#L40" parsed (Some "line 40") in
  forward_label (the_view st) = ViewFromTo 41 65 /\
  (l1 (the_view (button_callback true None st)),
   l2 (the_view (button_callback true None st))) = (40, Some 65).
Proof.
  intros parsed st.
  destruct (first_forward_label "https://github.com/o/r/blob/main/a.py#L40" parsed
              (Some "line 40") None None ltac:(cbn; lia)) as [Hnone _].
  destruct (Hnone eq_refl) as (Hlabel & Hwin & _).
  split; [exact Hlabel | exact Hwin].
Defined.

(** X6. Every press makes exactly one fetch, and edits the message once
    when it is a revert or when its fetch returned text, and not at all
    otherwise. *)
Theorem session_fetches_and_edits (ps : list press) (st : ui) :
  length (requests (session ps st)) = (length (requests st) + length ps)%nat /\
  edits (session ps st) = (edits st + length (filter (fun p => edits_message p = true) ps))%nat.
Proof.
  revert st. induction ps as [|p ps IH]; intros st.
  - cbn. split; lia.
  - change (session (p :: ps) st) with (session ps (handle p st)).
    destruct (IH (handle p st)) as [Hr He]. rewrite Hr, He.
    assert (Hp : length (requests (handle p st)) = S (length (requests st)) /\
                 edits (handle p st) = (edits st + if edits_message p then 1 else 0)%nat).
    { destruct p as [d fetched | fetched]; cbn [handle edits_message].
      - unfold button_callback.
        destruct (get_next_lines _ _ d) as [n1 n2].
        destruct (truthy_text fetched); cbn; split; lia.
      - cbn. split; lia. }
    destruct Hp as [Hr' He']. rewrite Hr', He'.
    rewrite filter_cons. destruct (edits_message p); cbn [length].
    + rewrite decide_True by reflexivity. cbn [length]. split; lia.
    + rewrite decide_False by discriminate. split; lia.
Qed.

Lemma button_callback_lines_url (d : bool) (fetched : option string) (st : ui) :
  lines_url (the_view (button_callback d fetched st)) =
    next_url (the_view st) (l1 (the_view st)) (l2 (the_view st))
      (fst (get_next_lines (l1 (the_view st)) (l2 (the_view st)) d))
      (snd (get_next_lines (l1 (the_view st)) (l2 (the_view st)) d)).
Proof.
  unfold button_callback.
  destruct (get_next_lines _ _ d) as [n1 n2].
  destruct (truthy_text fetched); reflexivity.
Qed.

(** X7. How a press rewrites [lines_url], for a URL whose only [#]
    starts the line fragment.  On GitHub from one line, [#L<l1>] becomes
    [#L<l1'>-L<l2'>]; on GitLab from a range, [#L<l1>-L<l2>] becomes
    [#L<l1'>-L<l2'>].  On GitLab from one line the URL is left as it was
    (the pattern looked for is [#L[<l1>]], brackets included), so it no
    longer names the lines shown. *)
Theorem press_rewrites_lines_url (st : ui) (d : bool) (fetched : option string)
    (base : string) :
  count_char "#" base = 0%nat ->
  let v := the_view st in
  let v' := the_view (button_callback d fetched st) in
  exists n2, l2 v' = Some n2 /\
    (platform v = "github"%string -> l2 v = None ->
     lines_url v = (base +:+ "#L" +:+ str_of_int (l1 v))%string ->
     lines_url v' = (base +:+ "#L" +:+ str_of_int (l1 v') +:+ "-L" +:+ str_of_int n2)%string) /\
    (forall p2, platform v = "gitlab"%string -> l2 v = Some p2 ->
     lines_url v = (base +:+ "#L" +:+ str_of_int (l1 v) +:+ "-L" +:+ str_of_int p2)%string ->
     lines_url v' = (base +:+ "#L" +:+ str_of_int (l1 v') +:+ "-L" +:+ str_of_int n2)%string) /\
    (platform v = "gitlab"%string -> l2 v = None ->
     count_char "[" (lines_url v) = 0%nat ->
     lines_url v' = lines_url v).
Proof.
  intros Hbase v v'.
  pose proof (button_callback_window d fetched st) as Hw.
  pose proof (button_callback_lines_url d fetched st) as Hu.
  fold v v' in Hw, Hu. unfold step in Hw. cbn [fst snd] in Hw.
  destruct (get_next_lines (l1 v) (l2 v) d) as [n1 n2]. cbn [fst snd] in Hu.
  injection Hw as H1 H2. exists n2. split; [exact H2|].
  rewrite Hu, H1. unfold next_url. split; [|split].
  - intros -> -> ->. cbn [String.eqb Ascii.eqb Bool.eqb].
    apply (replace_at_end "#" base ("L" +:+ str_of_int (l1 v)) _ Hbase).
  - intros p2 -> -> ->. cbn [String.eqb Ascii.eqb Bool.eqb].
    apply (replace_at_end "#" base ("L" +:+ str_of_int (l1 v) +:+ "-L" +:+ str_of_int p2) _ Hbase).
  - intros -> -> Hno. cbn [String.eqb Ascii.eqb Bool.eqb].
    apply (replace_absent "[" _ _ _ Hno). string_app. cbn. discriminate.
Qed.

Lemma press_rewrites_lines_url_witness :
  let st := opened "https://gitlab.com/o/r/-/blob/main/a.py#L40"
              {| groups := [GStr "gitlab"; GStr "o/r"; GStr "main"; GStr "a.py";
                            GStr "40"; GNone];
                 platform_group := "gitlab";
                 first_line_number := 40;
                 second_line_number := None |} (Some "line 40") in
  lines_url (the_view (button_callback true (Some "more") st))
    = "https://gitlab.com/o/r/-/blob/main/a.py#L40"%string.
Proof.
  intros st.
  destruct (press_rewrites_lines_url st true (Some "more")
              "https://gitlab.com/o/r/-/blob/main/a.py"%string eq_refl)
    as (n2 & _ & _ & _ & Hgitlab).
  exact (Hgitlab eq_refl eq_refl eq_refl).
Defined.

End LinesViewPaging.

(** ** More on the cache in front of the API *)

Module GitHubCacheLaws.
Import Py GitHub PyFacts.

Lemma cache_get_set (cache : gmap string pyval) (key : string) (value : pyval)
    (evicted : list string) :
  cache_get (cache_set cache key value evicted) key = value.
Proof. unfold cache_get, cache_set. rewrite lookup_insert_eq. reflexivity. Qed.

(** What a call does, by the entry found under its key. *)
Lemma wrapper_by_key (func : cached_fn) (args : list arg) (kwargs : list (string * arg))
    (evicted : list string) (cache : gmap string pyval) (key : string) :
  cache_key func args kwargs = inr key ->
  (truthy (cache_get cache key) = true ->
   wrapper func args kwargs evicted cache = inr (cache_get cache key, cache)) /\
  (truthy (cache_get cache key) = false ->
   wrapper func args kwargs evicted cache =
     inr (fn_call func args kwargs,
          if is_container (fn_call func args kwargs)
          then cache_set cache key (fn_call func args kwargs) evicted
          else cache)).
Proof.
  intros Hk. unfold wrapper. rewrite Hk. split; intros ->; [reflexivity|].
  destruct (is_container (fn_call func args kwargs)); reflexivity.
Qed.

(** X8. Once a call through the decorator has returned a non-empty dict
    or list, every later call that builds the same key gets that very
    value back and the function behind it is not consulted, whatever it
    would return now and whatever its other arguments are, as long as the
    entry has not been dropped. *)
Theorem cached_result_is_served (func func' : cached_fn) (args args' : list arg)
    (kwargs kwargs' : list (string * arg)) (evicted evicted' : list string)
    (cache cache' : gmap string pyval) (result : pyval) :
  wrapper func args kwargs evicted cache = inr (result, cache') ->
  is_container result = true -> truthy result = true ->
  cache_key func' args' kwargs' = cache_key func args kwargs ->
  wrapper func' args' kwargs' evicted' cache' = inr (result, cache').
Proof.
  intros Hw Hc Ht Hk.
  destruct (cache_key func args kwargs) as [e | key] eqn:Hkey.
  { unfold wrapper in Hw. rewrite Hkey in Hw. discriminate. }
  destruct (wrapper_by_key func args kwargs evicted cache key Hkey) as [Hhit Hmiss].
  destruct (wrapper_by_key func' args' kwargs' evicted' cache' key Hk) as [Hhit' _].
  destruct (truthy (cache_get cache key)) eqn:Hcached.
  - rewrite (Hhit eq_refl) in Hw. injection Hw as <- <-.
    rewrite Hhit' by exact Hcached. reflexivity.
  - rewrite (Hmiss eq_refl) in Hw. injection Hw as <- <-.
    rewrite Hc in *.
    rewrite Hhit'; rewrite cache_get_set; [reflexivity | exact Ht].
Qed.

Lemma cached_result_is_served_witness :
  let get_user := {| fn_id := 11; fn_call := fun _ _ => PyDict [("login", PyStr "octocat")] |} in
  let gone := {| fn_id := 11; fn_call := fun _ _ => PyNone |} in
  let cache' := cache_set ∅ "11:octocat" (PyDict [("login", PyStr "octocat")]) [] in
  wrapper gone [ArgObj "api"; ArgStr "octocat"] [] [] cache'
    = inr (PyDict [("login", PyStr "octocat")], cache').
Proof.
  intros get_user gone cache'.
  apply (cached_result_is_served get_user gone [ArgObj "api"; ArgStr "octocat"]
           [ArgObj "api"; ArgStr "octocat"] [] [] [] [] ∅ cache'); reflexivity.
Defined.

(** X9. An empty list or dict is stored but never served: the lookup
    tests the entry's truth value, so the next call with the same key
    calls the function again and returns what it returns now. *)
Theorem empty_result_is_not_served (func func' : cached_fn) (args args' : list arg)
    (kwargs kwargs' : list (string * arg)) (evicted evicted' : list string)
    (cache cache' : gmap string pyval) (result : pyval) :
  wrapper func args kwargs evicted cache = inr (result, cache') ->
  is_container result = true -> truthy result = false ->
  cache_key func' args' kwargs' = cache_key func args kwargs ->
  (exists key, cache_key func args kwargs = inr key /\ cache' !! key = Some result) /\
  exists cache'',
    wrapper func' args' kwargs' evicted' cache' = inr (fn_call func' args' kwargs', cache'').
Proof.
  intros Hw Hc Ht Hk.
  destruct (cache_key func args kwargs) as [e | key] eqn:Hkey.
  { unfold wrapper in Hw. rewrite Hkey in Hw. discriminate. }
  destruct (wrapper_by_key func args kwargs evicted cache key Hkey) as [Hhit Hmiss].
  destruct (wrapper_by_key func' args' kwargs' evicted' cache' key Hk) as [_ Hmiss'].
  destruct (truthy (cache_get cache key)) eqn:Hcached.
  - rewrite (Hhit eq_refl) in Hw. injection Hw as <- <-. congruence.
  - rewrite (Hmiss eq_refl) in Hw. injection Hw as <- <-.
    rewrite Hc in *. split.
    + exists key. split; [reflexivity|]. unfold cache_set. apply lookup_insert_eq.
    + eexists. apply Hmiss'. rewrite cache_get_set. exact Ht.
Qed.

Lemma empty_result_is_not_served_witness :
  let none_yet := {| fn_id := 12; fn_call := fun _ _ => PyList [] |} in
  let one_now := {| fn_id := 12; fn_call := fun _ _ => PyList [PyStr "repo"] |} in
  exists cache'',
    wrapper one_now [ArgObj "api"; ArgStr "octocat"] [] []
      (cache_set ∅ "12:octocat" (PyList []) [])
    = inr (PyList [PyStr "repo"], cache'').
Proof.
  intros none_yet one_now.
  refine (proj2 (empty_result_is_not_served none_yet one_now
                   [ArgObj "api"; ArgStr "octocat"] [ArgObj "api"; ArgStr "octocat"]
                   [] [] [] [] ∅ _ (PyList []) eq_refl eq_refl eq_refl eq_refl)).
Defined.

Lemma colon_splits (a a' b b' : string) :
  count_char ":" a = 0%nat -> count_char ":" a' = 0%nat ->
  (a +:+ ":" +:+ b)%string = (a' +:+ ":" +:+ b')%string -> a = a' /\ b = b'.
Proof.
  revert a'. induction a as [|x a IH]; intros a' Ha Ha' Heq.
  - destruct a' as [|y a']; string_app; string_app.
    + revert Heq. string_app. intros [= ->]. split; reflexivity.
    + revert Heq. string_app. intros [= <- _]. cbn in Ha'. discriminate.
  - destruct a' as [|y a'].
    + revert Heq. string_app. intros [= -> _]. cbn in Ha. discriminate.
    + revert Heq. string_app. intros [= -> Heq].
      cbn [count_char] in Ha, Ha'.
      destruct (IH a') as [-> ->]; [lia | lia | exact Heq | split; reflexivity].
Qed.

(** X10. The key tells functions and first arguments apart: two calls
    with positional arguments build the same key only if they go through
    the same function and their first arguments after [self] print the
    same.  Nothing else of the call enters the key. *)
Theorem cache_key_separates (func func' : cached_fn) (self self' a a' : arg)
    (rest rest' : list arg) (kwargs kwargs' : list (string * arg)) :
  cache_key func (self :: a :: rest) kwargs = cache_key func' (self' :: a' :: rest') kwargs'
  <-> fn_id func = fn_id func' /\ format_arg a = format_arg a'.
Proof.
  cbn [cache_key lookup list_lookup]. split.
  - intros [= Heq].
    assert (Hcolon : forall n, count_char ":" (str_of_int n) = 0%nat).
    { intros n. apply str_of_int_count; [|discriminate].
      apply not_a_digit. right. vm_compute. lia. }
    destruct (colon_splits _ _ _ _ (Hcolon _) (Hcolon _) Heq) as [Hid Harg].
    split; [|exact Harg]. unfold str_of_int in Hid.
    apply (inj pretty) in Hid. exact Hid.
  - intros [-> ->]. reflexivity.
Qed.

Lemma cache_key_separates_witness :
  let get_user := {| fn_id := 11; fn_call := fun _ _ => PyNone |} in
  let get_org := {| fn_id := 12; fn_call := fun _ _ => PyNone |} in
  cache_key get_user [ArgObj "api"; ArgStr "github"] []
    <> cache_key get_org [ArgObj "api"; ArgStr "github"] [].
Proof.
  intros get_user get_org Heq.
  apply cache_key_separates in Heq. destruct Heq as [Hid _]. discriminate Hid.
Defined.

End GitHubCacheLaws.

(** ** What [get_repo_zip] can return *)

Module ZipFacts.
Import Py GitHub.

(** X11. [get_repo_zip] returns [None] exactly when the name does not
    hold one slash or the response is not a 200; bytes only when the body
    is shorter than the threshold, and then they are the whole body; and
    [False] only when the body reaches the threshold. *)
Theorem get_repo_zip_cases (session_get : string -> http_response) (repo : string)
    (size_threshold : Z) :
  let res := session_get (BASE_URL +:+ "/repos/" +:+ repo +:+ "/zipball") in
  (get_repo_zip session_get repo size_threshold = ZipNone <->
   count_char "/" repo <> 1%nat \/ status res <> 200) /\
  (forall data, get_repo_zip session_get repo size_threshold = ZipBytes data ->
   data = body res /\ Z.of_nat (length data) < size_threshold) /\
  (get_repo_zip session_get repo size_threshold = ZipFalse ->
   size_threshold <= Z.of_nat (length (body res))).
Proof.
  intros res. unfold get_repo_zip. fold res.
  destruct (count_char "/" repo) as [|[|n]] eqn:Hn; cbn [Nat.eqb Nat.ltb Nat.leb orb].
  - split; [split; [left; lia | reflexivity] | split; [discriminate | discriminate]].
  - destruct (Z.eqb_spec (status res) 200) as [Hs | Hs].
    + unfold readexactly.
      destruct (Z.leb_spec size_threshold (Z.of_nat (length (body res)))) as [Hle | Hlt].
      * split; [split; [discriminate | intros [? | ?]; [lia | contradiction]]|].
        split; [discriminate | intros _; exact Hle].
      * split; [split; [discriminate | intros [? | ?]; [lia | contradiction]]|].
        split; [intros data [= <-]; split; [reflexivity | exact Hlt] | discriminate].
    + split; [split; [right; exact Hs | reflexivity] | split; discriminate].
  - split; [split; [left; lia | reflexivity] | split; [discriminate | discriminate]].
Qed.

End ZipFacts.

(** ** More on the lines-of-code command *)

Module LocLaws.
Import Py GitHub Loc.

Lemma get_repo_zip_bytes (session_get : string -> http_response) (repo : string)
    (size_threshold : Z) (data : list Byte.byte) :
  get_repo_zip session_get repo size_threshold = ZipBytes data ->
  Z.of_nat (length data) < size_threshold.
Proof.
  unfold get_repo_zip, readexactly.
  destruct ((count_char "/" repo =? 0) || (1 <? count_char "/" repo))%nat; [discriminate|].
  destruct (status _ =? 200); [|discriminate].
  destruct (Z.leb_spec size_threshold
              (Z.of_nat (length (body (session_get (BASE_URL +:+ "/repos/" +:+ repo +:+ "/zipball"))))))
    as [Hle | Hlt]; [discriminate|].
  intros [= <-]. exact Hlt.
Qed.

(** X12. A repository counted once is served from [loc_cache] for as
    long as the entry is kept: a later invocation without [nocache], for
    the same name in any letter case, returns the same report and count,
    downloads nothing and runs nothing, whatever GitHub or the counter
    would answer now. *)
Theorem counted_repo_is_cached (w w' : world) (loc_cache loc_cache' : gmap string (pyval * Z))
    (repo repo' : string) (out : pyval * Z) (effects : list effect) :
  nocache w = false -> nocache w' = false ->
  process_repo w loc_cache repo = (Some out, loc_cache', effects) ->
  lower repo' = lower repo ->
  process_repo w' loc_cache' repo' = (Some out, loc_cache', []).
Proof.
  intros Hw Hw' Hp Hlow.
  assert (Hin : loc_cache' !! lower repo = Some out).
  { revert Hp. unfold process_repo. rewrite Hw.
    destruct (loc_cache !! lower repo) as [cached|] eqn:Hc.
    - intros [= <- <- _]. exact Hc.
    - destruct (zip_falsy _); [discriminate|].
      destruct (cloc w); [|discriminate].
      intros [= <- <- _]. apply lookup_insert_eq. }
  unfold process_repo. rewrite Hw', Hlow, Hin. reflexivity.
Qed.

Lemma counted_repo_is_cached_witness :
  let zip := {| status := 200; body := [Byte.x50; Byte.x4b] |} in
  let w := {| nocache := false; message_id := 7;
              get_repo := fun _ => PyDict [("url", PyStr "u")];
              session_get := fun _ => zip; c_removed := 2;
              cloc := Some (PyDict [("SUM", PyDict [("code", PyInt 10)])]) |} in
  let w' := {| nocache := false; message_id := 8;
               get_repo := fun _ => PyNone;
               session_get := fun _ => {| status := 404; body := [] |}; c_removed := 0;
               cloc := None |} in
  process_repo w' (snd (fst (process_repo w ∅ "Octo/Repo"))) "octo/REPO"
    = (Some (PyDict [("SUM", PyDict [("code", PyInt 10)])], 2),
       snd (fst (process_repo w ∅ "Octo/Repo")), []).
Proof.
  intros zip w w'.
  apply (counted_repo_is_cached w w' ∅ _ "Octo/Repo" "octo/REPO" _
           (snd (process_repo w ∅ "Octo/Repo"))); reflexivity.
Defined.

(** X13. Whatever is fetched or counted, the temporary files go: an
    invocation has no effect at all exactly when it is served from the
    cache, and otherwise its last effect removes the directory and the
    archive named after the message, which is the only archive it writes,
    with a non-empty body shorter than 25 MiB. *)
Theorem temp_files_are_removed (w : world) (loc_cache : gmap string (pyval * Z))
    (repo : string) :
  let effects := snd (process_repo w loc_cache repo) in
  let dir := ("./tmp/" +:+ str_of_int (message_id w))%string in
  (effects = [] <-> nocache w = false /\ is_Some (loc_cache !! lower repo)) /\
  (effects <> [] ->
   head effects = Some EnsureTmp /\
   last effects = Some (Cleanup dir (dir +:+ ".zip")) /\
   forall path data, In (WriteZip path data) effects ->
     path = (dir +:+ ".zip")%string /\ data <> [] /\
     Z.of_nat (length data) < _25MB_BYTES).
Proof.
  intros effects dir. subst effects. unfold process_repo.
  destruct (nocache w) eqn:Hn.
  - match goal with |- context [get_repo_zip ?s ?r ?t] =>
      destruct (get_repo_zip s r t) as [| |data] eqn:Hz end;
      cbn [zip_falsy].
    1,2: split; [split; [discriminate | intros [? _]; discriminate]|];
         intros _; split; [reflexivity|]; split; [reflexivity|];
         intros path data' [Hin | [Hin | []]]; discriminate.
    destruct data as [|b data].
    + split; [split; [discriminate | intros [? _]; discriminate]|].
      intros _. split; [reflexivity|]. split; [reflexivity|].
      intros path data' [Hin | [Hin | []]]; discriminate.
    + apply get_repo_zip_bytes in Hz.
      destruct (cloc w); cbn [snd app];
        (split; [split; [discriminate | intros [? _]; discriminate]|]);
        intros _; (split; [reflexivity|]); (split; [reflexivity|]);
        intros path data' Hin; cbn [In] in Hin;
        repeat (destruct Hin as [Hin | Hin]; try discriminate Hin);
        try contradiction;
        injection Hin as <- <-; (split; [reflexivity|]); (split; [discriminate | exact Hz]).
  - destruct (loc_cache !! lower repo) as [cached|] eqn:Hc.
    + cbn [snd]. split; [split; [intros _; split; [reflexivity | eauto] | reflexivity]|].
      intros []. reflexivity.
    + match goal with |- context [get_repo_zip ?s ?r ?t] =>
        destruct (get_repo_zip s r t) as [| |data] eqn:Hz end;
        cbn [zip_falsy].
      1,2: split; [split; [discriminate | intros [_ [? ?]]; discriminate]|];
           intros _; split; [reflexivity|]; split; [reflexivity|];
           intros path data' [Hin | [Hin | []]]; discriminate.
      destruct data as [|b data].
      * split; [split; [discriminate | intros [_ [? ?]]; discriminate]|].
        intros _. split; [reflexivity|]. split; [reflexivity|].
        intros path data' [Hin | [Hin | []]]; discriminate.
      * apply get_repo_zip_bytes in Hz.
        destruct (cloc w); cbn [snd app];
          (split; [split; [discriminate | intros [_ [? ?]]; discriminate]|]);
          intros _; (split; [reflexivity|]); (split; [reflexivity|]);
          intros path data' Hin; cbn [In] in Hin;
          repeat (destruct Hin as [Hin | Hin]; try discriminate Hin);
          try contradiction;
          injection Hin as <- <-; (split; [reflexivity|]); (split; [discriminate | exact Hz]).
Qed.

Lemma temp_files_are_removed_witness :
  let w := {| nocache := true; message_id := 7;
              get_repo := fun _ => PyDict [("url", PyStr "u")];
              session_get := fun _ => {| status := 200; body := [Byte.x50; Byte.x4b] |};
              c_removed := 0; cloc := None |} in
  last (snd (process_repo w ∅ "octo/repo")) = Some (Cleanup "./tmp/7" "./tmp/7.zip").
Proof.
  intros w.
  destruct (temp_files_are_removed w ∅ "octo/repo") as [_ Hlast].
  destruct (Hlast ltac:(discriminate)) as (_ & Hl & _). exact Hl.
Defined.

(** X14. For a repository that exists, the command answers "file too
    big" exactly when nothing is served from the cache and either the
    archive is refused ([None], [False] or an empty body) or the line
    counter fails.  In the second case the counter did run: its failure
    is reported as a file that is too big. *)
Theorem file_too_big_cases (w : world) (loc_cache : gmap string (pyval * Z))
    (repo : string) :
  truthy (get_repo w repo) = true ->
  let repo' := if nocache w then repo else lower repo in
  let refused := zip_falsy (get_repo_zip (session_get w) repo' _25MB_BYTES) in
  let out := lines_of_code_command w loc_cache repo in
  (fst (fst out) = Loc.Error "loc.file_too_big" <->
   (if nocache w then None else loc_cache !! repo') = None /\
   (refused = true \/ cloc w = None)) /\
  ((if nocache w then None else loc_cache !! repo') = None ->
   refused = false -> cloc w = None ->
   fst (fst out) = Loc.Error "loc.file_too_big" /\ counted (snd out) = true).
Proof.
  intros Hr repo' refused out. subst out refused.
  unfold lines_of_code_command. rewrite Hr. cbn [negb].
  unfold process_repo. fold repo'.
  destruct (if nocache w then None else loc_cache !! repo') as [[output count]|].
  - cbn [fst snd]. split; [split; [discriminate | intros [? _]; discriminate] | discriminate].
  - destruct (zip_falsy (get_repo_zip (session_get w) repo' _25MB_BYTES)).
    + cbn [fst snd]. split; [split; [auto | reflexivity] | discriminate].
    + destruct (cloc w) as [output|]; cbn [fst snd].
      * split; [|discriminate]. split; [discriminate|].
        intros [_ [? | ?]]; discriminate.
      * split; [split; [auto | reflexivity]|]. intros _ _ _. split; reflexivity.
Qed.

Lemma file_too_big_cases_witness :
  let w := {| nocache := false; message_id := 7;
              get_repo := fun _ => PyDict [("url", PyStr "u")];
              session_get := fun _ => {| status := 200; body := [Byte.x50; Byte.x4b] |};
              c_removed := 0; cloc := None |} in
  fst (fst (lines_of_code_command w ∅ "octo/repo")) = Loc.Error "loc.file_too_big" /\
  counted (snd (lines_of_code_command w ∅ "octo/repo")) = true.
Proof.
  intros w.
  destruct (file_too_big_cases w ∅ "octo/repo" eq_refl) as [_ Hfail].
  exact (Hfail eq_refl eq_refl eq_refl).
Defined.



End LocLaws.

(** ** Laws of the preference store *)

Module UserCollectionLaws.
Import Py UserCollection UserCollectionOps.

Lemma getitem_field (c : collection) (_id : Z) (item : string) :
  item <> "_id"%string ->
  getitem c _id item = c !! (inl _id : bson) ≫= (fun fields => fields !! item).
Proof.
  intros Hi. unfold getitem, find_one.
  destruct (c !! (inl _id : bson)) as [fields|]; cbn; [|reflexivity].
  apply lookup_insert_ne. congruence.
Qed.

Lemma setitem_eval (env : validators) (c : collection) (_id : Z) (item value : string) :
  item <> "_id"%string ->
  setitem env c _id item value =
    if valid env item value
    then inr (true, <[(inl _id : bson) :=
                       <[item := (inr value : bson)]> (default ∅ (c !! (inl _id : bson)))]> c)
    else inr (false, c).
Proof.
  intros Hitem. unfold setitem. destruct (valid env item value); [|reflexivity].
  destruct (c !! (inl _id : bson)) as [fields|] eqn:Hc.
  - rewrite (UserCollectionFacts.find_one_Some c _ fields Hc). unfold update_one_set.
    rewrite (UserCollectionFacts.matched_found c _ fields Hc), decide_False by exact Hitem.
    rewrite (UserCollectionFacts.alter_found c _ fields _ Hc). reflexivity.
  - rewrite (UserCollectionFacts.find_one_None c _ Hc). unfold insert_one.
    rewrite lookup_insert_ne by congruence.
    rewrite lookup_singleton_eq, Hc. do 3 f_equal. cbn.
    rewrite delete_insert_ne by congruence.
    rewrite delete_singleton_eq. reflexivity.
Qed.

(** X16. A write that passes the check can be read back, and touches
    nothing else: after [setitem] returns [True], [getitem] for the same
    id and field gives the value written, and for every other id or field
    it gives what it gave before. *)
Theorem setitem_then_getitem (env : validators) (c c' : collection) (_id : Z)
    (item value : string) :
  item <> "_id"%string ->
  setitem env c _id item value = inr (true, c') ->
  getitem c' _id item = Some (inr value) /\
  (forall _id' item', item' <> "_id"%string -> (_id' <> _id \/ item' <> item) ->
     getitem c' _id' item' = getitem c _id' item').
Proof.
  intros Hitem Hset. rewrite (setitem_eval env c _id item value Hitem) in Hset.
  destruct (valid env item value); [|discriminate]. injection Hset as <-.
  split.
  - rewrite getitem_field by exact Hitem. rewrite lookup_insert_eq. cbn.
    apply lookup_insert_eq.
  - intros _id' item' Hitem' Hother. rewrite !getitem_field by exact Hitem'.
    destruct (decide (_id' = _id)) as [-> | Hid].
    + destruct Hother as [? | Hne]; [contradiction|].
      rewrite lookup_insert_eq. cbn. rewrite lookup_insert_ne by congruence.
      destruct (c !! (inl _id : bson)); reflexivity.
    + rewrite lookup_insert_ne by congruence. reflexivity.
Qed.

Lemma setitem_then_getitem_witness :
  let env := {| get_user := fun _ => PyDict [("login", PyStr "octocat")];
                get_repo := fun _ => PyNone;
                get_org := fun _ => PyNone;
                languages := ["en"%string] |} in
  let c : collection := {[ (inl 1 : bson) := {[ "locale"%string := (inr "en"%string : bson) ]} ]} in
  getitem (<[(inl 1 : bson) := <["user"%string := (inr "octocat"%string : bson)]>
                                 {[ "locale"%string := (inr "en"%string : bson) ]}]> c)
          1 "user" = Some (inr "octocat"%string).
Proof.
  intros env c.
  refine (proj1 (setitem_then_getitem env c _ 1 "user" "octocat" ltac:(discriminate) _)).
  rewrite setitem_eval by discriminate. reflexivity.
Defined.

Lemma delitem_user_returns (c : collection) (_id : Z) :
  exists done c', delitem c _id "user" = inr (done, c').
Proof.
  rewrite (UserCollectionFacts.delitem_eval c _id "user" ltac:(discriminate)).
  destruct (c !! (inl _id : bson)) as [fields|]; [|eauto].
  destruct (decide (is_Some (fields !! "user"%string))); [|eauto].
  destruct (decide (size (<["_id" := inl _id]> (delete "user"%string fields)) = 1%nat)); eauto.
Qed.

Lemma delitem_gone (c c' : collection) (_id : Z) (field : string) (done : bool) :
  field <> "_id"%string ->
  delitem c _id field = inr (done, c') ->
  getitem c' _id field = None /\
  (forall _id' item', item' <> "_id"%string -> (_id' <> _id \/ item' <> field) ->
     getitem c' _id' item' = getitem c _id' item').
Proof.
  intros Hf Hdel.
  rewrite (UserCollectionFacts.delitem_eval c _id field Hf) in Hdel.
  destruct (c !! (inl _id : bson)) as [fields|] eqn:Hc.
  - destruct (decide (is_Some (fields !! field))) as [Hin | Hout].
    + destruct (decide (size (<["_id" := inl _id]> (delete field fields)) = 1%nat))
        as [Hlast | Hmore]; injection Hdel as <- <-.
      * split.
        -- rewrite getitem_field by exact Hf. rewrite lookup_delete_eq. reflexivity.
        -- intros _id' item' Hitem' Hother. rewrite !getitem_field by exact Hitem'.
           destruct (decide (_id' = _id)) as [-> | Hid].
           ++ destruct Hother as [? | Hne]; [contradiction|].
              rewrite lookup_delete_eq, Hc. cbn.
              pose proof (proj1 (UserCollectionFacts.size_insert_one _ _ _) Hlast
                            item' Hitem') as Hnone.
              rewrite lookup_delete_ne in Hnone by congruence. congruence.
           ++ rewrite lookup_delete_ne by congruence. reflexivity.
      * split.
        -- rewrite getitem_field by exact Hf. rewrite lookup_insert_eq. cbn.
           apply lookup_delete_eq.
        -- intros _id' item' Hitem' Hother. rewrite !getitem_field by exact Hitem'.
           destruct (decide (_id' = _id)) as [-> | Hid].
           ++ destruct Hother as [? | Hne]; [contradiction|].
              rewrite lookup_insert_eq, Hc. cbn. apply lookup_delete_ne. congruence.
           ++ rewrite lookup_insert_ne by congruence. reflexivity.
    + injection Hdel as <- <-. split; [|reflexivity].
      rewrite getitem_field by exact Hf. rewrite Hc. cbn.
      destruct (fields !! field) eqn:Hfield; [|reflexivity].
      exfalso. apply Hout. eauto.
  - injection Hdel as <- <-. split; [|reflexivity].
    rewrite getitem_field by exact Hf. rewrite Hc. reflexivity.
Qed.

(** X17. A field removed is gone and nothing else is: after [delitem]
    returns, [getitem] for that id and field gives [None], every other id
    or field reads as before, and a second [delitem] of the same field
    returns [False] and changes nothing. *)
Theorem delitem_then_getitem (c c' : collection) (_id : Z) (field : string) (done : bool) :
  field <> "_id"%string ->
  delitem c _id field = inr (done, c') ->
  getitem c' _id field = None /\
  (forall _id' item', item' <> "_id"%string -> (_id' <> _id \/ item' <> field) ->
     getitem c' _id' item' = getitem c _id' item') /\
  delitem c' _id field = inr (false, c').
Proof.
  intros Hf Hdel.
  destruct (delitem_gone c c' _id field done Hf Hdel) as [Hnone Hframe].
  split; [exact Hnone|]. split; [exact Hframe|].
  rewrite (UserCollectionFacts.delitem_eval c' _id field Hf).
  rewrite getitem_field in Hnone by exact Hf.
  destruct (c' !! (inl _id : bson)) as [fields|]; [|reflexivity].
  cbn in Hnone. rewrite decide_False; [reflexivity|].
  rewrite Hnone. intros [? ?]. discriminate.
Qed.

Lemma delitem_then_getitem_witness :
  let c : collection :=
    {[ (inl 1 : bson) := {[ "user"%string := (inr "octocat"%string : bson);
                            "locale"%string := (inr "en"%string : bson) ]} ]} in
  exists done c', delitem c 1 "user" = inr (done, c') /\
    getitem c' 1 "user" = None /\ getitem c' 1 "locale" = Some (inr "en"%string).
Proof.
  intros c.
  destruct (delitem_user_returns c 1) as (done & c' & Hd).
  destruct (delitem_then_getitem c c' 1 "user" done ltac:(discriminate) Hd)
    as (Hnone & Hframe & _).
  exists done, c'. split; [exact Hd|]. split; [exact Hnone|].
  rewrite (Hframe 1 "locale"%string) by (try right; discriminate). reflexivity.
Defined.

(** X18. Writing a field that was not set and removing it again gives
    the store back, provided the record, if there is one, holds a field
    besides [_id]. *)
Theorem setitem_then_delitem (env : validators) (c c' : collection) (_id : Z)
    (item value : string) :
  item <> "_id"%string ->
  getitem c _id item = None ->
  (forall fields, c !! (inl _id : bson) = Some fields ->
     exists k, k <> "_id"%string /\ is_Some (fields !! k)) ->
  setitem env c _id item value = inr (true, c') ->
  delitem c' _id item = inr (true, c).
Proof.
  intros Hitem Hnone Hfull Hset.
  rewrite (setitem_eval env c _id item value Hitem) in Hset.
  destruct (valid env item value); [|discriminate]. injection Hset as <-.
  rewrite (UserCollectionFacts.delitem_eval _ _id item Hitem).
  rewrite lookup_insert_eq, lookup_insert_eq.
  rewrite decide_True by eauto.
  rewrite !delete_insert_eq, insert_insert_eq.
  rewrite getitem_field in Hnone by exact Hitem.
  destruct (c !! (inl _id : bson)) as [fields|] eqn:Hc; cbn in *.
  - rewrite (delete_id fields item Hnone).
    destruct (Hfull fields eq_refl) as (k & Hk & Hsome).
    rewrite decide_False.
    + rewrite insert_id by exact Hc. reflexivity.
    + intros Hsize.
      pose proof (proj1 (UserCollectionFacts.size_insert_one _ _ _) Hsize k Hk) as Hk'.
      rewrite Hk' in Hsome. destruct Hsome. discriminate.
  - rewrite delete_empty. rewrite decide_True.
    + rewrite delete_id by exact Hc. reflexivity.
    + apply (proj2 (UserCollectionFacts.size_insert_one _ _ _)).
      intros j _. apply lookup_empty.
Qed.

Lemma setitem_then_delitem_witness :
  let env := {| get_user := fun _ => PyNone; get_repo := fun _ => PyNone;
                get_org := fun _ => PyNone; languages := ["en"%string] |} in
  delitem (<[(inl 3 : bson) := {[ "locale"%string := (inr "en"%string : bson) ]}]> ∅) 3 "locale"
    = inr (true, ∅).
Proof.
  intros env.
  apply (setitem_then_delitem env ∅ _ 3 "locale" "en" ltac:(discriminate) eq_refl).
  - intros fields. rewrite lookup_empty. discriminate.
  - rewrite setitem_eval by discriminate. reflexivity.
Defined.

Lemma size_insert_more (m : gmap string bson) (k : string) (v : bson) :
  size (<[k := v]> m) <> 1%nat -> exists j, j <> k /\ is_Some (m !! j).
Proof.
  intros Hsize.
  destruct (decide (delete k m = ∅)) as [Hempty | Hne].
  - exfalso. apply Hsize. rewrite <- (insert_delete_eq m k v), Hempty.
    rewrite insert_empty. apply map_size_singleton.
  - destruct (map_choose _ Hne) as (j & x & Hj).
    apply lookup_delete_Some in Hj. destruct Hj as [Hjk Hj]. eauto.
Qed.

Lemma setitem_no_empty_record (env : validators) (c : collection) (_id : Z)
    (item value : string) :
  item <> "_id"%string -> no_empty_record c ->
  no_empty_record (apply_op env c (SetItem _id item value)).
Proof.
  intros Hitem Hc. cbn [apply_op]. rewrite (setitem_eval env c _id item value Hitem).
  destruct (valid env item value); [|exact Hc].
  intros k fields Hk. destruct (decide ((inl _id : bson) = k)) as [<- | Hne].
  - rewrite lookup_insert_eq in Hk. injection Hk as <-.
    exists item. split; [exact Hitem|]. rewrite lookup_insert_eq. eauto.
  - rewrite lookup_insert_ne in Hk by exact Hne. exact (Hc k fields Hk).
Qed.

Lemma delitem_no_empty_record (env : validators) (c : collection) (_id : Z) (field : string) :
  field <> "_id"%string -> no_empty_record c ->
  no_empty_record (apply_op env c (DelItem _id field)).
Proof.
  intros Hf Hc. cbn [apply_op]. rewrite (UserCollectionFacts.delitem_eval c _id field Hf).
  destruct (c !! (inl _id : bson)) as [fields|] eqn:Hfields; [|exact Hc].
  destruct (decide (is_Some (fields !! field))); [|exact Hc].
  destruct (decide (size (<["_id" := inl _id]> (delete field fields)) = 1%nat))
    as [Hlast | Hmore].
  - intros k fields' Hk. destruct (decide ((inl _id : bson) = k)) as [<- | Hne].
    + rewrite lookup_delete_eq in Hk. discriminate.
    + rewrite lookup_delete_ne in Hk by exact Hne. exact (Hc k fields' Hk).
  - intros k fields' Hk. destruct (decide ((inl _id : bson) = k)) as [<- | Hne].
    + rewrite lookup_insert_eq in Hk. injection Hk as <-.
      exact (size_insert_more _ _ _ Hmore).
    + rewrite lookup_insert_ne in Hk by exact Hne. exact (Hc k fields' Hk).
Qed.

(** X19. The store never holds a record with nothing but its [_id]:
    if no record is empty, none is after any writes and removals of
    fields other than [_id]; in particular none is, starting from the
    empty store. *)
Theorem store_has_no_empty_record (env : validators) (os : list op) (c : collection) :
  Forall (fun o => op_field o <> "_id"%string) os ->
  no_empty_record c ->
  no_empty_record (apply_ops env os c) /\ no_empty_record (apply_ops env os ∅).
Proof.
  intros Hos.
  assert (Hkeep : forall c0, no_empty_record c0 -> no_empty_record (apply_ops env os c0)).
  { induction Hos as [|o os Ho _ IH]; intros c0 Hc0; [exact Hc0|].
    cbn [apply_ops fold_left]. apply IH.
    destruct o as [_id item value | _id field]; cbn [op_field] in Ho.
    - apply setitem_no_empty_record; assumption.
    - apply delitem_no_empty_record; assumption. }
  intros Hc. split; [apply Hkeep, Hc|].
  apply Hkeep. intros k fields Hk. rewrite lookup_empty in Hk. discriminate.
Qed.

Lemma store_has_no_empty_record_witness :
  let env := {| get_user := fun _ => PyDict []; get_repo := fun _ => PyNone;
                get_org := fun _ => PyNone; languages := ["en"%string] |} in
  no_empty_record
    (apply_ops env [SetItem 1 "user" "octocat"; SetItem 1 "locale" "en";
                    DelItem 1 "user"; DelItem 1 "locale"] ∅).
Proof.
  intros env.
  refine (proj2 (store_has_no_empty_record env _ ∅ _ _)).
  - repeat constructor; discriminate.
  - intros k fields Hk. rewrite lookup_empty in Hk. discriminate.
Defined.

End UserCollectionLaws.

(** ** The result sheet *)

Module LocSheetFacts.
Import Py LocSheet PyFacts.

Lemma length_app (s t : string) :
  String.length (s +:+ t) = (String.length s + String.length t)%nat.
Proof.
  induction s as [|c s IH]; string_app; cbn [String.length]; [reflexivity | rewrite IH; reflexivity].
Qed.

Lemma app_assoc (s t u : string) : ((s +:+ t) +:+ u)%string = (s +:+ t +:+ u)%string.
Proof. induction s as [|c s IH]; string_app; [reflexivity | f_equal; exact IH]. Qed.

Lemma concat_cons (x : string) (xs : list string) :
  String.concat "" (x :: xs) = (x +:+ String.concat "" xs)%string.
Proof.
  destruct xs as [|y ys]; cbn [String.concat]; [rewrite app_empty_r | string_app]; reflexivity.
Qed.

Lemma drop_last_app (s t : string) : drop_last (String.length t) (s +:+ t) = s.
Proof.
  unfold drop_last. rewrite length_app.
  replace (String.length s + String.length t - String.length t)%nat
    with (String.length s) by lia.
  apply String.prefix_correct, prefix_app.
Qed.

Lemma brace_free_app (s t : string) :
  brace_free s -> brace_free t -> brace_free (s +:+ t).
Proof.
  unfold brace_free. rewrite !count_char_app. lia.
Qed.

Lemma brace_free_cons (c : ascii) (s : string) :
  brace_free (String c s) -> is_open c = false /\ is_close c = false /\ brace_free s.
Proof.
  unfold brace_free, is_open, is_close. cbn [count_char].
  rewrite (Ascii.eqb_sym c "{"), (Ascii.eqb_sym c "}").
  destruct (Ascii.eqb "{" c), (Ascii.eqb "}" c); cbn; lia.
Qed.

(** Text without braces goes through [format] as it is. *)
Lemma format_go_plain (arg : string) (used : bool) (p t : string) :
  brace_free p ->
  format_go arg used (p +:+ t) = String.append p <$> format_go arg used t.
Proof.
  induction p as [|c p IH]; intros Hp; string_app.
  - destruct (format_go arg used t); reflexivity.
  - apply brace_free_cons in Hp. destruct Hp as (Ho & Hc & Hp).
    cbn [format_go]. rewrite Ho, Hc, (IH Hp).
    destruct (format_go arg used t); reflexivity.
Qed.

Lemma format_go_done (arg : string) (used : bool) (t : string) :
  brace_free t -> format_go arg used t = Some t.
Proof.
  intros Ht. rewrite <- (app_empty_r t) at 1.
  rewrite format_go_plain by exact Ht. cbn. rewrite app_empty_r. reflexivity.
Qed.

(** One round of the loop: the field at the end takes the new line and a
    field for the next. *)
Lemma format_row (p row : string) :
  brace_free p ->
  format (p +:+ "{}```") (row +:+ "{}") = Some ((p +:+ row) +:+ "{}```")%string.
Proof.
  intros Hp. unfold format. rewrite format_go_plain by exact Hp.
  change (format_go (row +:+ "{}") false "{}```")
    with (String.append (row +:+ "{}") <$> format_go (row +:+ "{}") true "```").
  rewrite format_go_done by (split; reflexivity). cbn.
  rewrite !app_assoc. reflexivity.
Qed.

Lemma sheet_line_printable (k : string) (v : pyval) (code : string) :
  subscript v "code" ≫= format_value = Some code ->
  sheet_line (k, v) = (k +:+ ": " +:+ code +:+ newline)%string.
Proof. intros H. unfold sheet_line. cbn [fst snd]. rewrite H. reflexivity. Qed.

Lemma sheet_line_brace_free (entry : string * pyval) :
  printable entry -> brace_free (sheet_line entry).
Proof.
  destruct entry as [k v]. intros [Hk (code & Hcode & Hfree)]. cbn [fst snd] in *.
  rewrite (sheet_line_printable k v code Hcode).
  repeat apply brace_free_app; try assumption; split; reflexivity.
Qed.

Lemma sheet_loop_rows (items : list (string * pyval)) (threshold : nat) (p : string) :
  brace_free p ->
  Forall printable (take threshold (filter (fun e => is_language (fst e) = true) items)) ->
  sheet_loop items (Z.of_nat threshold) (p +:+ "{}```") =
    Some ((p +:+ String.concat ""
                   (map sheet_line
                      (take threshold (filter (fun e => is_language (fst e) = true) items))))
          +:+ "{}```")%string.
Proof.
  revert threshold p. induction items as [|[k v] items IH]; intros threshold p Hp Hrows.
  - cbn. destruct threshold; cbn; rewrite app_empty_r; reflexivity.
  - cbn [sheet_loop]. destruct threshold as [|th].
    + cbn. rewrite app_empty_r. reflexivity.
    + replace (Z.of_nat (S th) =? 0) with false by (symmetry; apply Z.eqb_neq; lia).
      rewrite filter_cons in *. cbn [fst] in *.
      destruct (is_language k) eqn:Hk.
      * rewrite decide_True in * by reflexivity. cbn [take map] in *.
        apply Forall_cons in Hrows. destruct Hrows as [Hrow Hrows].
        pose proof (sheet_line_brace_free _ Hrow) as Hline.
        destruct Hrow as [Hkfree (code & Hcode & Hcfree)]. cbn [fst snd] in *.
        rewrite Hcode. cbn [mbind option_bind].
        pose proof (format_row p (sheet_line (k, v)) Hp) as Hfmt.
        rewrite (sheet_line_printable k v code Hcode) in Hfmt at 1.
        rewrite !app_assoc in Hfmt. rewrite Hfmt. cbn [mbind option_bind].
        replace (Z.of_nat (S th) - 1) with (Z.of_nat th) by lia.
        rewrite <- app_assoc.
        rewrite (IH th (p +:+ sheet_line (k, v))%string)
          by (try apply brace_free_app; assumption).
        rewrite concat_cons, !app_assoc. reflexivity.
      * rewrite decide_False in * by discriminate.
        apply (IH (S th) p Hp Hrows).
Qed.

(** X20. The sheet lists the languages of the report in order, skipping
    the entries [header] and [SUM], and stops after 15 of them: when each
    of those has a count and holds no brace, the result is the opening
    fence, one line "name: count" per language, and the closing fence. *)
Theorem prepare_result_sheet_rows (data : list (string * pyval)) :
  let rows := take 15 (filter (fun e => is_language (fst e) = true) data) in
  Forall printable rows ->
  prepare_result_sheet data =
    Some ("```py" +:+ newline +:+ String.concat "" (map sheet_line rows) +:+ "```")%string /\
  (length rows <= 15)%nat.
Proof.
  intros rows Hrows. split; [|subst rows; rewrite length_take; lia].
  unfold prepare_result_sheet.
  pose proof (sheet_loop_rows data 15 ("```py" +:+ newline) ltac:(split; reflexivity) Hrows)
    as Hloop.
  fold rows in Hloop. rewrite app_assoc in Hloop.
  change (Z.of_nat 15) with 15 in Hloop.
  change ("```py" +:+ newline +:+ "{}```")%string
    with (("```py" +:+ newline) +:+ "{}```")%string.
  rewrite app_assoc. rewrite Hloop. cbn [mbind option_bind].
  rewrite <- app_assoc.
  rewrite (drop_last_app _ "{}```"). rewrite !app_assoc. reflexivity.
Qed.

Lemma prepare_result_sheet_rows_witness :
  prepare_result_sheet
    [("header"%string, PyDict [("n_lines", PyInt 140)]);
     ("Python"%string, PyDict [("nFiles", PyInt 3); ("code", PyInt 120)]);
     ("C++"%string, PyDict [("nFiles", PyInt 1); ("code", PyInt 7)]);
     ("SUM"%string, PyDict [("code", PyInt 127)])]
  = Some ("```py" +:+ newline +:+ "Python: 120" +:+ newline +:+ "C++: 7" +:+ newline
          +:+ "```")%string.
Proof.
  refine (proj1 (prepare_result_sheet_rows _ _)).
  repeat constructor; cbn; eexists; split; try reflexivity; split; reflexivity.
Defined.

End LocSheetFacts.

(** ** Download statistics *)

Module CratesDownloadsFacts.
Import Py Commands CratesDownloads.

Lemma total_app (xs ys : list day) : total (xs ++ ys) = total xs + total ys.
Proof.
  unfold total. induction xs as [|x xs IH]; cbn [app foldr]; [reflexivity | rewrite IH; lia].
Qed.

Lemma total_nonneg (xs : list day) :
  Forall (fun item => 0 <= downloads item) xs -> 0 <= total xs.
Proof. unfold total. induction 1 as [|x xs Hx _ IH]; cbn [foldr]; lia. Qed.

Lemma total_drop (k : nat) (xs : list day) :
  Forall (fun item => 0 <= downloads item) xs -> total (drop k xs) <= total xs.
Proof.
  intros Hxs. rewrite <- (take_drop k xs) at 2. rewrite total_app.
  pose proof (total_nonneg (take k xs) ltac:(apply Forall_take, Hxs)). lia.
Qed.

Lemma total_last (xs : list day) (d : day) :
  xs <> [] -> Forall (fun item => 0 <= downloads item) xs ->
  downloads (List.last xs d) <= total xs.
Proof.
  intros Hne Hxs. induction Hxs as [|x xs Hx Hxs IH]; [contradiction|].
  destruct xs as [|y ys]; [cbn; lia|].
  change (List.last (x :: y :: ys) d) with (List.last (y :: ys) d).
  specialize (IH ltac:(discriminate)). cbn [total foldr] in *. lia.
Qed.

Lemma last_drop (k : nat) (xs : list day) (d : day) :
  (k < length xs)%nat -> List.last (drop k xs) d = List.last xs d.
Proof.
  revert k. induction xs as [|x xs IH]; intros k Hk; [cbn in Hk; lia|].
  destruct k as [|k]; [reflexivity|]. cbn [drop]. cbn [length] in Hk.
  rewrite IH by lia. destruct xs; [cbn in Hk; lia | reflexivity].
Qed.

(** X21. For a history with no negative count, the figures the command
    puts in its description are ordered: yesterday's downloads are at
    most last week's, which are at most last month's, which are at most
    the sum of the history.  With at most 7 days of history last week and
    last month are both the sum of all of it.  The chart has one point
    per day. *)
Theorem download_figures_ordered (ctx : context) (crates_logo project : string)
    (data : list day) :
  data <> [] ->
  Forall (fun item => 0 <= downloads item) data ->
  let '(yesterday_dl, last_week_dl, last_month_dl) := figures data in
  (exists c,
     crate_downloads_command ctx crates_logo project (Some data) = Chart c /\
     chart_description c =
       (fmt ctx "crates downloads" "stats yesterday" [str_of_int yesterday_dl]
        +:+ newline
        +:+ fmt ctx "crates downloads" "stats last_week" [str_of_int last_week_dl]
        +:+ newline
        +:+ fmt ctx "crates downloads" "stats last_month" [str_of_int last_month_dl])%string /\
     length (chart_points c) = length data) /\
  yesterday_dl <= last_week_dl /\ last_week_dl <= last_month_dl /\
  last_month_dl <= total data /\
  ((length data <= 7)%nat -> last_week_dl = total data /\ last_month_dl = total data).
Proof.
  intros Hne Hdata.
  assert (Hlen : (0 < length data)%nat) by (destruct data; [contradiction | cbn; lia]).
  assert (Hcmd : exists c,
     crate_downloads_command ctx crates_logo project (Some data) = Chart c /\
     chart_description c =
       (fmt ctx "crates downloads" "stats yesterday"
          [str_of_int (fst (fst (figures data)))]
        +:+ newline
        +:+ fmt ctx "crates downloads" "stats last_week"
              [str_of_int (snd (fst (figures data)))]
        +:+ newline
        +:+ fmt ctx "crates downloads" "stats last_month"
              [str_of_int (snd (figures data))])%string /\
     length (chart_points c) = length data).
  { destruct data as [|d data]; [contradiction|].
    unfold crate_downloads_command.
    destruct (figures (d :: data)) as [[y w] m]. cbn [fst snd].
    eexists. split; [reflexivity|]. split; [reflexivity|].
    cbn [chart_points]. apply length_map. }
  unfold figures in *. cbn [fst snd] in Hcmd. unfold last_days in *.
  split; [exact Hcmd|]. split; [|split; [|split]].
  - rewrite <- (last_drop (length data - 7) data) by lia.
    apply total_last.
    + intros Hnil. apply (f_equal length) in Hnil.
      rewrite length_drop in Hnil. cbn in Hnil. lia.
    + apply Forall_drop, Hdata.
  - replace (drop (length data - 7) data)
      with (drop ((length data - 7) - (length data - 30)) (drop (length data - 30) data)).
    + apply total_drop, Forall_drop, Hdata.
    + rewrite drop_drop. f_equal. lia.
  - apply total_drop, Hdata.
  - intros Hshort.
    replace (length data - 7)%nat with 0%nat by lia.
    replace (length data - 30)%nat with 0%nat by lia.
    split; reflexivity.
Qed.

Lemma download_figures_ordered_witness :
  let data := [ {| date := "2024-01-01"; downloads := 5 |};
                {| date := "2024-01-02"; downloads := 0 |};
                {| date := "2024-01-03"; downloads := 9 |} ] in
  figures data = (9, 14, 14) /\
  let '(yesterday_dl, last_week_dl, last_month_dl) := figures data in
  yesterday_dl <= last_week_dl /\ last_week_dl <= last_month_dl.
Proof.
  intros data. split; [reflexivity|].
  pose proof (download_figures_ordered {| fmt := fun _ entry _ => entry; rounded := 0 |}
                "logo" "serde" data ltac:(discriminate)
                ltac:(repeat constructor; cbn; lia)) as H.
  destruct (figures data) as [[y w] m].
  destruct H as (_ & Hyw & Hwm & _). split; [exact Hyw | exact Hwm].
Defined.

End CratesDownloadsFacts.

(** ** The user command *)

Module UserInfoFacts.
Import Py Commands UserCollection UserInfo.

(** X22. A stored user that GitHub no longer knows is forgotten: invoked
    with no name, the command answers that the stored user has changed
    and removes the field [user] of the author's record, leaving every
    other field and record alone; invoked again with no name, it answers
    that no user is stored. *)
Theorem stale_stored_user_is_forgotten (ctx : context) (loc : locale)
    (inv inv' : invocation) (flag flag' : bool) (c : collection) (stored : string) :
  getitem c (author inv) "user" = Some (inr stored) -> stored <> ""%string ->
  data inv = None -> get_user inv stored = None ->
  author inv' = author inv ->
  exists c',
    user_command_group ctx loc inv flag c None
      = Replied (Failed "generic.nonexistent.user.qa_changed") c' /\
    getitem c' (author inv) "user" = None /\
    (forall _id item, item <> "_id"%string -> (_id <> author inv \/ item <> "user"%string) ->
       getitem c' _id item = getitem c _id item) /\
    user_command_group ctx loc inv' flag' c' None
      = Replied (Failed "generic.nonexistent.user.qa") c'.
Proof.
  intros Hstored Hne Hdata Hgone Hauthor.
  destruct (UserCollectionLaws.delitem_user_returns c (author inv)) as (done & c' & Hdel).
  destruct (UserCollectionLaws.delitem_gone c c' (author inv) "user" done
              ltac:(discriminate) Hdel) as [Hnone Hframe].
  exists c'. split; [|split; [exact Hnone | split; [exact Hframe|]]].
  - unfold user_command_group. cbn [no_user truthy_text negb]. rewrite Hstored.
    apply String.eqb_neq in Hne. rewrite Hne. cbn [negb].
    unfold user_info_body. rewrite Hdata, Hgone, Hdel. reflexivity.
  - unfold user_command_group. cbn [no_user truthy_text negb].
    rewrite Hauthor, Hnone. reflexivity.
Qed.

Lemma stale_stored_user_is_forgotten_witness :
  let ctx := {| fmt := fun _ entry _ => entry; rounded := 0 |} in
  let loc := {| l := fun path => path; format := fun t _ => t;
                capitalize := fun s => s;
                github_to_discord_timestamp := fun s => s |} in
  let inv := {| author := 5; data := None; get_user := fun _ => None |} in
  let c : collection :=
    {[ (inl 5 : bson) := {[ "user"%string := (inr "ghost"%string : bson);
                            "locale"%string := (inr "en"%string : bson) ]} ]} in
  exists c',
    user_command_group ctx loc inv false c None
      = Replied (Failed "generic.nonexistent.user.qa_changed") c' /\
    getitem c' 5 "user" = None /\ getitem c' 5 "locale" = Some (inr "en"%string).
Proof.
  intros ctx loc inv c.
  destruct (stale_stored_user_is_forgotten ctx loc inv inv false false c "ghost"
              eq_refl ltac:(discriminate) eq_refl eq_refl eq_refl)
    as (c' & Hreply & Hnone & Hframe & _).
  exists c'. split; [exact Hreply|]. split; [exact Hnone|].
  rewrite (Hframe 5 "locale"%string) by (try right; discriminate). reflexivity.
Defined.

(** X23. A name given with the command is looked up and the store is
    left alone: for a name GitHub does not know the answer is the entry
    "no such user", for one it knows the embed is sent, linked to the
    user's page and carrying the avatar; the group command and the info
    command answer alike. *)
Theorem explicit_user_leaves_store (ctx : context) (loc : locale) (inv : invocation)
    (c : collection) (user : string) :
  user <> ""%string -> data inv = None ->
  (get_user inv user = None ->
   user_command_group ctx loc inv false c (Some user)
     = Replied (Failed "generic.nonexistent.user.base") c) /\
  (forall u, get_user inv user = Some u ->
   exists embed,
     user_command_group ctx loc inv false c (Some user) = Replied (Sent embed (u_url u)) c /\
     info_url embed = u_url u /\ info_thumbnail embed = u_avatarUrl u) /\
  user_info_command ctx loc inv false c (Some user)
    = user_command_group ctx loc inv false c (Some user).
Proof.
  intros Hne Hdata.
  assert (Hno : no_user (Some user) = false).
  { unfold no_user. cbn. apply String.eqb_neq in Hne. rewrite Hne. reflexivity. }
  unfold user_info_command, user_command_group. rewrite Hno. cbn [default from_option id].
  unfold user_info_body. rewrite Hdata.
  split; [|split; [|reflexivity]].
  - intros Hget. rewrite Hget. reflexivity.
  - intros u Hget. rewrite Hget. destruct user as [|ch user]; [contradiction|].
    cbn [user_info_embed]. eexists. split; [reflexivity|]. split; reflexivity.
Qed.

Lemma explicit_user_leaves_store_witness :
  let ctx := {| fmt := fun _ entry _ => entry; rounded := 0 |} in
  let loc := {| l := fun path => path; format := fun t _ => t;
                capitalize := fun s => s;
                github_to_discord_timestamp := fun s => s |} in
  let inv := {| author := 5; data := None; get_user := fun _ => None |} in
  user_command_group ctx loc inv false ∅ (Some "ghost"%string)
    = Replied (Failed "generic.nonexistent.user.base") ∅.
Proof.
  intros ctx loc inv.
  exact (proj1 (explicit_user_leaves_store ctx loc inv ∅ "ghost"
                  ltac:(discriminate) eq_refl) eq_refl).
Defined.

(** X24. The counts of organisations, followers, followed users and
    repositories are worded by three cases: 0 takes the entry that says
    there are none, 1 the singular entry, and any other count the plural
    entry with the number in it. *)
Theorem counts_are_worded_by_case (ctx : context) (loc : locale) (what none : string)
    (count : Z) (url : string) :
  (count = 0 ->
   orgs loc count = (l loc "user.info.orgs.no_orgs" +:+ newline)%string /\
   follow_phrase ctx loc what none count url = l loc ("user.info." +:+ what +:+ "." +:+ none) /\
   repos ctx loc count url = (l loc "user.info.repos.no_repos" +:+ newline)%string) /\
  (count = 1 ->
   orgs loc count = (l loc "user.info.orgs.singular" +:+ newline)%string /\
   follow_phrase ctx loc what none count url
     = fmt ctx "user info" (what +:+ " singular") [(url +:+ "?tab=" +:+ what)%string] /\
   repos ctx loc count url
     = (fmt ctx "user info" "repos singular" [(url +:+ "?tab=repositories")%string]
        +:+ newline)%string) /\
  (count <> 0 -> count <> 1 ->
   orgs loc count
     = (format loc (l loc "user.info.orgs.plural") [str_of_int count] +:+ newline)%string /\
   follow_phrase ctx loc what none count url
     = fmt ctx "user info" (what +:+ " plural")
         [str_of_int count; (url +:+ "?tab=" +:+ what)%string] /\
   repos ctx loc count url
     = (fmt ctx "user info" "repos plural"
          [str_of_int count; (url +:+ "?tab=repositories")%string] +:+ newline)%string).
Proof.
  unfold orgs, follow_phrase, repos. split; [|split].
  - intros ->. repeat split.
  - intros ->. repeat split.
  - intros H0 H1. apply Z.eqb_neq in H0, H1. rewrite H0, H1. repeat split.
Qed.

Lemma counts_are_worded_by_case_witness :
  let ctx := {| fmt := fun _ entry args => entry +:+ ":" +:+ String.concat "," args;
                rounded := 0 |} in
  let loc := {| l := fun path => path; format := fun t args => t +:+ String.concat "," args;
                capitalize := fun s => s;
                github_to_discord_timestamp := fun s => s |} in
  repos ctx loc 2 "https://github.com/octocat"
    = (fmt ctx "user info" "repos plural"
         [str_of_int 2; "https://github.com/octocat?tab=repositories"%string]
       +:+ newline)%string.
Proof.
  intros ctx loc.
  destruct (counts_are_worded_by_case ctx loc "followers" "no_followers" 2
              "https://github.com/octocat") as (_ & _ & Hplural).
  destruct (Hplural ltac:(lia) ltac:(lia)) as (_ & _ & Hrepos). exact Hrepos.
Defined.

Lemma link_target_kept (caption target : string) (rest : list (option string * string)) :
  target <> ""%string ->
  link_strings ((Some target, caption) :: rest) =
    ("- [" +:+ caption +:+ "](" +:+ target +:+ ")")%string :: link_strings rest.
Proof.
  intros Hne. unfold link_strings. cbn [omap list_omap fst snd].
  apply String.eqb_neq in Hne. rewrite Hne. reflexivity.
Qed.

Lemma link_target_dropped (caption : string) (rest : list (option string * string)) :
  link_strings ((None, caption) :: rest) = link_strings rest.
Proof. reflexivity. Qed.

Lemma prefixed_not_empty (p s : string) : p <> ""%string -> (p +:+ s)%string <> ""%string.
Proof. destruct p as [|c p]; [contradiction|]. PyFacts.string_app. discriminate. Qed.

Lemma user_info_embed_fields (ctx : context) (loc : locale) (user : string)
    (u : user_object) (embed : info_embed) :
  user_info_embed ctx loc user u = inr embed ->
  exists bio_field info,
    (length bio_field <= 1)%nat /\
    info_fields embed =
      bio_field
      ++ [ {| field_name := ":mag_right: " +:+ l loc "user.info.glossary.1" +:+ ":";
              field_value := info; inline := false |} ]
      ++ match link_strings (links loc u) with
         | [] => []
         | strings =>
             [ {| field_name := ":link: " +:+ l loc "user.info.glossary.2" +:+ ":";
                  field_value := String.concat newline strings; inline := false |} ]
         end.
Proof.
  unfold user_info_embed. destruct user as [|ch user]; [discriminate|].
  intros [= <-]. eexists _, _. split; [|reflexivity].
  destruct (bio u) as [text|]; [|cbn; lia].
  destruct (0 <? String.length text)%nat; cbn; lia.
Qed.

(** X25. The links of the embed: a website given without a scheme is
    linked with [https://] put before it, one given with [http://] or
    [https://] as it is; the field of links closes the embed when there
    is a link, and is left out exactly when the user has neither a
    non-empty website nor a Twitter name. *)
Theorem links_of_user (ctx : context) (loc : locale) (user : string) (u : user_object) :
  (forall w, websiteUrl u = Some w -> w <> ""%string ->
     head (link_strings (links loc u)) =
       Some ("- [" +:+ l loc "user.info.glossary.3" +:+ "]("
             +:+ (if has_scheme w then w else "https://" +:+ w) +:+ ")")%string) /\
  (link_strings (links loc u) = [] <->
   (websiteUrl u = None \/ websiteUrl u = Some ""%string) /\ twitterUsername u = None) /\
  (forall embed, user_info_embed ctx loc user u = inr embed ->
     (1 <= length (info_fields embed) <= 3)%nat /\
     (link_strings (links loc u) = [] ->
      exists info,
        last (info_fields embed) =
          Some {| field_name := ":mag_right: " +:+ l loc "user.info.glossary.1" +:+ ":";
                  field_value := info; inline := false |}) /\
     (link_strings (links loc u) <> [] ->
      last (info_fields embed) =
        Some {| field_name := ":link: " +:+ l loc "user.info.glossary.2" +:+ ":";
                field_value := String.concat newline (link_strings (links loc u));
                inline := false |})).
Proof.
  split; [|split].
  - intros w Hw Hne. unfold links. rewrite Hw.
    apply String.eqb_neq in Hne as Hneb. rewrite Hneb. cbn [negb].
    rewrite link_target_kept; [reflexivity|].
    destruct (has_scheme w); [exact Hne | apply prefixed_not_empty; discriminate].
  - unfold links. split.
    + intros Hnil. destruct (websiteUrl u) as [w|].
      * destruct (String.eqb_spec w "") as [Heq | Hne]; cbn [negb] in Hnil.
        -- rewrite link_target_dropped in Hnil. split; [right; f_equal; exact Heq|].
           destruct (twitterUsername u) as [name|]; [|reflexivity].
           rewrite link_target_kept in Hnil by (apply prefixed_not_empty; discriminate).
           discriminate.
        -- rewrite link_target_kept in Hnil; [discriminate|].
           destruct (has_scheme w); [exact Hne | apply prefixed_not_empty; discriminate].
      * rewrite link_target_dropped in Hnil. split; [left; reflexivity|].
        destruct (twitterUsername u) as [name|]; [|reflexivity].
        rewrite link_target_kept in Hnil by (apply prefixed_not_empty; discriminate).
        discriminate.
    + intros [[-> | ->] ->]; reflexivity.
  - intros embed Hembed.
    destruct (user_info_embed_fields ctx loc user u embed Hembed)
      as (bio_field & info & Hbio & Hfields).
    rewrite Hfields.
    destruct (link_strings (links loc u)) as [|s ss] eqn:Hlinks.
    + rewrite app_nil_r. rewrite length_app. cbn [length].
      split; [lia|]. split; [|intros []; reflexivity].
      intros _. eexists. rewrite last_snoc. reflexivity.
    + rewrite !length_app. cbn [length].
      split; [lia|]. split; [discriminate|].
      intros _. rewrite app_assoc, last_snoc. reflexivity.
Qed.

Lemma links_of_user_witness :
  let loc := {| l := fun path => path; format := fun t _ => t;
                capitalize := fun s => s;
                github_to_discord_timestamp := fun s => s |} in
  let u := {| u_url := "https://github.com/octocat"; contributions := None;
              organizations := 0; bio := None; company := None;
              followers := 0; following := 0; public_repos := 0;
              createdAt := "2011-01-25T18:44:36Z";
              websiteUrl := Some "github.blog"%string; twitterUsername := None;
              u_avatarUrl := "https://a/1.png" |} in
  head (link_strings (links loc u))
    = Some "- [user.info.glossary.3](https://github.blog)"%string.
Proof.
  intros loc u.
  destruct (links_of_user {| fmt := fun _ entry _ => entry; rounded := 0 |} loc "octocat" u)
    as [Hsite _].
  exact (Hsite "github.blog"%string eq_refl ltac:(discriminate)).
Defined.

End UserInfoFacts.

(** ** The migration script *)

Module MigrationFacts.
Import Py UserCollection Migration.




End MigrationFacts.
